(** * MbaroMire backend: offers, listings and reservations

    A shallow embedding of [main.py] and [schemas.py].  Request handlers are
    written as programs over the effects they perform (reads of the process
    environment and calls to the document store); the programs are then run
    either one after the other ([run]) or interleaved at the granularity of
    single store calls ([sched]). *)

From Stdlib Require Import ZArith NArith List String Ascii Bool Lia Floats.
Import ListNotations.

Set Warnings "-register-all".

Local Open Scope string_scope.
Local Open Scope Z_scope.

(** ** bson object ids *)

(** An object id is a string of bytes.  The ids the store hands out have 12
    bytes, and are numbered by their value, below 16^24.  [ObjectId(s)] can
    also yield ids of fewer bytes (see below); they are numbered from 16^24
    up, by length and value, so that an id is one number and a shorter id
    is none of the store's. *)
Definition oid := N.

Definition hex_digit (c : ascii) : option N :=
  let n := N_of_ascii c in
  if ((48 <=? n) && (n <=? 57))%N then Some (n - 48)%N
  else if ((97 <=? n) && (n <=? 102))%N then Some (n - 87)%N
  else if ((65 <=? n) && (n <=? 70))%N then Some (n - 55)%N
  else None.

(** The value of a string of hexadecimal digits, one digit at a time. *)
Fixpoint fromhex (s : string) (acc : N) : option N :=
  match s with
  | EmptyString => Some acc
  | String c rest =>
      match hex_digit c with
      | Some h => fromhex rest (16 * acc + h)%N
      | None => None
      end
  end.

(** ASCII white space: tab, line feed, vertical tab, form feed, carriage
    return and space. *)
Definition is_space (c : ascii) : bool :=
  let n := N_of_ascii c in
  (((9 <=? n) && (n <=? 13)) || (n =? 32))%N.

(** Python's [bytes.fromhex]: white space before a byte is skipped; a byte
    is two hexadecimal digits next to each other; anything else is an error
    (here: [None]). *)
Fixpoint bytes_fromhex (s : string) : option (list N) :=
  match s with
  | EmptyString => Some []
  | String c rest =>
      if is_space c then bytes_fromhex rest
      else
        match hex_digit c, rest with
        | Some top, String c' rest' =>
            match hex_digit c' with
            | Some bot =>
                option_map (cons (16 * top + bot)%N) (bytes_fromhex rest')
            | None => None
            end
        | _, _ => None
        end
  end.

Fixpoint bytes_value (b : list N) (acc : N) : N :=
  match b with
  | [] => acc
  | x :: rest => bytes_value rest (256 * acc + x)%N
  end.

(** The number of an id, from its bytes. *)
Definition oid_of_bytes (b : list N) : oid :=
  if (List.length b =? 12)%nat then bytes_value b 0%N
  else (16 ^ 24 * (N.of_nat (List.length b) + 1) + bytes_value b 0)%N.

(** [ObjectId(s)] of the bson library for a [str] argument: a string of 24
    characters is handed to [bytes.fromhex], and its bytes are the id; a
    string of another length, or one that [bytes.fromhex] refuses, raises
    [InvalidId] (here: [None]).  So 24 hexadecimal digits give a 12-byte id,
    and 24 characters with white space between the bytes give a shorter
    one. *)
Definition ObjectId (s : string) : option oid :=
  if (String.length s =? 24)%nat
  then option_map oid_of_bytes (bytes_fromhex s)
  else None.

Definition hex_char (n : N) : ascii :=
  if (n <? 10)%N then ascii_of_N (48 + n) else ascii_of_N (87 + n).

Fixpoint hex_of (digits : nat) (n : N) (acc : string) : string :=
  match digits with
  | O => acc
  | S d => hex_of d (n / 16)%N (String (hex_char (n mod 16)%N) acc)
  end.

(** [str(oid)]: 24 lower-case hexadecimal digits. *)
Definition oid_str (o : oid) : string := hex_of 24 o "".

(** ** schemas.py *)

Module Vendor.
Record t := mk {
  name : string;
  city : string;
  address : option string;
  phone : option string;
  cuisine : option string;
  image_url : option string;
  active : bool
}.
End Vendor.

Module Offer.
Record t := mk {
  title : string;
  description : option string;
  vendor_name : string;
  city : string;
  address : option string;
  cuisine : option string;
  tags : list string;
  original_price : float;      (* ge=0 *)
  price : float;               (* ge=0 *)
  quantity : Z;                (* ge=0 *)
  pickup_start : Z;
  pickup_end : Z;
  image_url : option string;
  active : bool
}.

(** The constraints pydantic checks when the model is built from a request
    body: the three [ge=0] fields. *)
Definition valid (o : t) : bool :=
  (PrimFloat.leb 0%float (original_price o))
  && (PrimFloat.leb 0%float (price o))
  && (0 <=? quantity o).

Definition set_quantity (q : Z) (o : t) : t :=
  mk (title o) (description o) (vendor_name o) (city o) (address o)
     (cuisine o) (tags o) (original_price o) (price o) q
     (pickup_start o) (pickup_end o) (image_url o) (active o).
End Offer.

Module Reservation.
Record t := mk {
  offer_id : string;
  customer_name : string;
  customer_phone : string;
  quantity : Z;                (* ge=1 *)
  status : string              (* reserved | picked_up | cancelled *)
}.
End Reservation.

(** ** Models declared in main.py *)

Module OfferOut.
Record t := mk {
  id : string;
  title : string;
  vendor_name : string;
  city : string;
  price : float;
  original_price : float;
  quantity : Z;
  pickup_start : Z;
  pickup_end : Z;
  image_url : option string;
  cuisine : option string;
  tags : list string;
  address : option string
}.
End OfferOut.

Module ReservationIn.
Record t := mk {
  offer_id : string;
  customer_name : string;
  customer_phone : string;
  quantity : Z                 (* no constraint; default 1 *)
}.
End ReservationIn.

(** ** Exceptions and responses *)

Inductive Exn :=
| HTTPException (status_code : Z) (detail : string)
| InvalidId (oid : string)                 (* bson.errors.InvalidId *)
| ValidationError (model : string)         (* pydantic, raised in a handler *)
| RequestValidationError                   (* FastAPI, body rejected: 422 *)
| StoreUnavailableError.                   (* the store cannot serve a call *)

(** ** The document store *)

(** A stored offer: its id, the fields of the [Offer] it was created from,
    and the timestamp [reserve] sets.  Offers are written by [create_offer]
    only, from a validated model, so every key of the schema is present and
    [d.get(key, default)] is the field. *)
Record OfferDoc := mkOfferDoc {
  offer_oid : oid;                         (* "_id" *)
  offer_doc : Offer.t;
  offer_updated_at : option Z              (* "updated_at" *)
}.

Record ReservationDoc := mkReservationDoc {
  reservation_oid : oid;
  reservation_doc : Reservation.t
}.

Record VendorDoc := mkVendorDoc {
  vendor_oid : oid;
  vendor_doc : Vendor.t
}.

(** The three collections, each in the store's native (insertion) order,
    and the next object id the store hands out. *)
Record DB := mkDB {
  coll_offer : list OfferDoc;
  coll_reservation : list ReservationDoc;
  coll_vendor : list VendorDoc;
  next_oid : oid
}.

(** The handlers' surroundings: the global [db] handle ([None] when the
    database is not configured), the process environment, the clock, and a
    schedule of store outages: the n-th store call fails when the n-th entry
    is [true]; an exhausted schedule means the store answers every call. *)
Record World := mkWorld {
  db : option DB;
  environ : list (string * string);
  clock : Z;
  faults : list bool
}.

Definition with_db (d : DB) (fs : list bool) (w : World) : World :=
  mkWorld (Some d) (environ w) (clock w) fs.

Definition with_faults (fs : list bool) (w : World) : World :=
  mkWorld (db w) (environ w) (clock w) fs.

(** *** Query documents *)

Inductive Value :=
| VNull
| VBool (b : bool)
| VInt (z : Z)
| VFloat (f : float)
| VStr (s : string)
| VDate (t : Z)
| VArr (l : list string).

Inductive Cond :=
| CEq (v : Value)                          (* "key": v *)
| CGt (v : Value)                          (* "key": {"$gt": v} *)
| CRegex (pattern options : string)        (* {"$regex": p, "$options": o} *)
| CElemMatch (c : Cond).                   (* {"$elemMatch": c} *)

(** A filter is a dict: the conjunction of its entries. *)
Inductive Entry :=
| EField (key : string) (c : Cond)
| EOr (alternatives : list (list Entry)).  (* "$or": [filter, ...] *)

Definition Filter := list Entry.

Definition opt_value (o : option string) : Value :=
  match o with Some s => VStr s | None => VNull end.

(** [d.get(key)] on a stored offer. *)
Definition doc_get (d : OfferDoc) (key : string) : option Value :=
  let o := offer_doc d in
  if String.eqb key "title" then Some (VStr (Offer.title o))
  else if String.eqb key "description" then Some (opt_value (Offer.description o))
  else if String.eqb key "vendor_name" then Some (VStr (Offer.vendor_name o))
  else if String.eqb key "city" then Some (VStr (Offer.city o))
  else if String.eqb key "address" then Some (opt_value (Offer.address o))
  else if String.eqb key "cuisine" then Some (opt_value (Offer.cuisine o))
  else if String.eqb key "tags" then Some (VArr (Offer.tags o))
  else if String.eqb key "original_price" then Some (VFloat (Offer.original_price o))
  else if String.eqb key "price" then Some (VFloat (Offer.price o))
  else if String.eqb key "quantity" then Some (VInt (Offer.quantity o))
  else if String.eqb key "pickup_start" then Some (VDate (Offer.pickup_start o))
  else if String.eqb key "pickup_end" then Some (VDate (Offer.pickup_end o))
  else if String.eqb key "image_url" then Some (opt_value (Offer.image_url o))
  else if String.eqb key "active" then Some (VBool (Offer.active o))
  else if String.eqb key "updated_at" then
    match offer_updated_at d with Some t => Some (VDate t) | None => None end
  else None.

Definition value_eqb (a b : Value) : bool :=
  match a, b with
  | VNull, VNull => true
  | VBool x, VBool y => Bool.eqb x y
  | VInt x, VInt y => x =? y
  | VFloat x, VFloat y => PrimFloat.eqb x y
  | VStr x, VStr y => (x =? y)%string
  | VDate x, VDate y => x =? y
  | VArr x, VArr y => if list_eq_dec string_dec x y then true else false
  | VArr x, VStr y => existsb (String.eqb y) x
  | _, _ => false
  end.

Definition value_gtb (a b : Value) : bool :=
  match a, b with
  | VInt x, VInt y => y <? x
  | VFloat x, VFloat y => PrimFloat.ltb y x
  | VDate x, VDate y => y <? x
  | _, _ => false
  end.

(** ** Effects of a handler *)

Inductive Eff : Type -> Type :=
| db_is_None : Eff bool
| getenv (name : string) : Eff (option string)
| utcnow : Eff Z
| find_one (o : oid) : Eff (option OfferDoc)
| update_one (o : oid) (inc_quantity set_updated_at : Z) : Eff unit
| create_document_vendor (x : Vendor.t) : Eff string
| create_document_offer (x : Offer.t) : Eff string
| create_document_reservation (x : Reservation.t) : Eff string
| get_documents (filt : Filter) (limit : nat) : Eff (list OfferDoc).

(** ** Programs over the effects *)

Inductive Prog (A : Type) : Type :=
| Ret (a : A)
| Raise (e : Exn)
| Do {X : Type} (op : Eff X) (k : X -> Prog A).

Arguments Ret {A} a.
Arguments Raise {A} e.
Arguments Do {A X} op k.

Fixpoint bind {A B : Type} (p : Prog A) (f : A -> Prog B) : Prog B :=
  match p with
  | Ret a => f a
  | Raise e => Raise e
  | Do op k => Do op (fun x => bind (k x) f)
  end.

Definition call {X : Type} (op : Eff X) : Prog X := Do op Ret.

Notation "x <- p ;; q" := (bind p (fun x => q))
  (at level 61, p at next level, right associativity).
Notation "p ;; q" := (bind p (fun _ => q))
  (at level 61, right associativity).

(** ** main.py: the request handlers *)

Inductive Response :=
| RId (id : string)                         (* {"id": id} *)
| RReserved (id message : string)           (* {"id": id, "message": message} *)
| ROffers (result : list OfferOut.t)
| ROffer (id : string) (doc : Offer.t) (updated_at : option Z).
                                            (* the document, "_id" turned into "id" *)

(** Truth value of an optional string: [None] and the empty string are
    false. *)
Definition truthy (s : option string) : bool :=
  match s with
  | Some x => negb (String.eqb x "")
  | None => false
  end.

Definition opt_str_eqb (a b : option string) : bool :=
  match a, b with
  | Some x, Some y => String.eqb x y
  | None, None => true
  | _, _ => false
  end.

Definition create_vendor (vendor : Vendor.t) : Prog Response :=
  vendor_id <- call (create_document_vendor vendor) ;;
  Ret (RId vendor_id).

Definition create_offer (offer : Offer.t) (admin_code : option string)
  : Prog Response :=
  env <- call (getenv "ADMIN_CODE") ;;
  let required_code := match env with Some c => c | None => "admin123" end in
  if truthy (Some required_code)
     && negb (opt_str_eqb admin_code (Some required_code))
  then Raise (HTTPException 401 "Invalid admin code")
  else if PrimFloat.ltb (Offer.original_price offer) (Offer.price offer)
  then Raise (HTTPException 400 "Price must be <= original price")
  else
    offer_id <- call (create_document_offer offer) ;;
    Ret (RId offer_id).

Definition regex_i (q : string) : Cond := CRegex q "i".

(** The filter [list_offers] builds from its three optional parameters. *)
Definition list_filter (city cuisine q : option string) : Filter :=
  let filt := [EField "active" (CEq (VBool true));
               EField "quantity" (CGt (VInt 0))] in
  let filt :=
    if truthy city then (filt ++ [EField "city" (CEq (opt_value city))])%list
    else filt in
  let filt :=
    if truthy cuisine then (filt ++ [EField "cuisine" (CEq (opt_value cuisine))])%list
    else filt in
  match q with
  | Some pat =>
      if truthy q
      then (filt ++ [EOr [[EField "title" (regex_i pat)];
                          [EField "vendor_name" (regex_i pat)];
                          [EField "tags" (CElemMatch (regex_i pat))]]])%list
      else filt
  | None => filt
  end.

Definition offer_out (d : OfferDoc) : OfferOut.t :=
  let o := offer_doc d in
  OfferOut.mk (oid_str (offer_oid d)) (Offer.title o) (Offer.vendor_name o)
              (Offer.city o) (Offer.price o) (Offer.original_price o)
              (Offer.quantity o) (Offer.pickup_start o) (Offer.pickup_end o)
              (Offer.image_url o) (Offer.cuisine o) (Offer.tags o)
              (Offer.address o).

Definition list_offers (city cuisine q : option string) : Prog Response :=
  docs <- call (get_documents (list_filter city cuisine q) 100) ;;
  Ret (ROffers (map offer_out docs)).

Definition parse_oid (s : string) : Prog oid :=
  match ObjectId s with
  | Some o => Ret o
  | None => Raise (InvalidId s)
  end.

Definition get_offer (offer_id : string) : Prog Response :=
  none <- call db_is_None ;;
  if (none : bool) then Raise (HTTPException 500 "Database not configured")
  else
    o <- parse_oid offer_id ;;
    doc <- call (find_one o) ;;
    match doc with
    | None => Raise (HTTPException 404 "Offer not found")
    | Some doc =>
        Ret (ROffer (oid_str (offer_oid doc)) (offer_doc doc)
                    (offer_updated_at doc))
    end.

(** [Reservation(...)]: building the model checks [quantity >= 1]. *)
Definition Reservation_init (offer_id customer_name customer_phone : string)
  (quantity : Z) (status : string) : Prog Reservation.t :=
  if quantity <? 1 then Raise (ValidationError "Reservation")
  else Ret (Reservation.mk offer_id customer_name customer_phone quantity status).

Definition reserve (res : ReservationIn.t) : Prog Response :=
  none <- call db_is_None ;;
  if (none : bool) then Raise (HTTPException 500 "Database not configured")
  else
    o <- parse_oid (ReservationIn.offer_id res) ;;
    offer <- call (find_one o) ;;
    match offer with
    | None => Raise (HTTPException 404 "Offer not found")
    | Some offer =>
        if Offer.quantity (offer_doc offer) <? ReservationIn.quantity res
        then Raise (HTTPException 400 "Not enough quantity")
        else
          reservation <- Reservation_init (ReservationIn.offer_id res)
                           (ReservationIn.customer_name res)
                           (ReservationIn.customer_phone res)
                           (ReservationIn.quantity res) "reserved" ;;
          reservation_id <- call (create_document_reservation reservation) ;;
          o' <- parse_oid (ReservationIn.offer_id res) ;;
          now <- call utcnow ;;
          call (update_one o' (- ReservationIn.quantity res) now) ;;
          Ret (RReserved reservation_id "Reserved")
    end.

(** The routes, with the validation FastAPI performs on a request body
    before the handler is entered. *)
Inductive Request :=
| POST_vendors (vendor : Vendor.t)
| POST_offers (offer : Offer.t) (admin_code : option string)
| GET_offers (city cuisine q : option string)
| GET_offer (offer_id : string)
| POST_reservations (res : ReservationIn.t).

Definition handle (r : Request) : Prog Response :=
  match r with
  | POST_vendors vendor => create_vendor vendor
  | POST_offers offer admin_code =>
      if Offer.valid offer then create_offer offer admin_code
      else Raise RequestValidationError
  | GET_offers city cuisine q => list_offers city cuisine q
  | GET_offer offer_id => get_offer offer_id
  | POST_reservations res => reserve res
  end.

(** *** Operations on the collections *)

Section Store.

(** The store's regular-expression engine: [regex_search pattern options s]
    tells whether the pattern is found in [s].  The handlers pass patterns
    through untouched, so the engine is left open. *)
Variable regex_search : string -> string -> string -> bool.

Fixpoint cond_holds (c : Cond) (v : Value) : bool :=
  match c with
  | CEq x => value_eqb v x
  | CGt x => value_gtb v x
  | CRegex p o =>
      match v with
      | VStr s => regex_search p o s
      | VArr l => existsb (regex_search p o) l
      | _ => false
      end
  | CElemMatch c' =>
      match v with
      | VArr l => existsb (fun s => cond_holds c' (VStr s)) l
      | _ => false
      end
  end.

Fixpoint entry_holds (e : Entry) (d : OfferDoc) : bool :=
  match e with
  | EField key c =>
      match doc_get d key with
      | Some v => cond_holds c v
      | None => false
      end
  | EOr alternatives =>
      existsb (fun f => forallb (fun e' => entry_holds e' d) f) alternatives
  end.

Definition matches (filt : Filter) (d : OfferDoc) : bool :=
  forallb (fun e => entry_holds e d) filt.

Definition has_oid (o : oid) (d : OfferDoc) : bool := N.eqb (offer_oid d) o.

(** [db["offer"].find_one({"_id": o})]: the first document with that id. *)
Definition coll_find_one (o : oid) (d : DB) : option OfferDoc :=
  find (has_oid o) (coll_offer d).

(** The patch [{"$inc": {"quantity": n}, "$set": {"updated_at": t}}]. *)
Definition patch (n t : Z) (d : OfferDoc) : OfferDoc :=
  mkOfferDoc (offer_oid d)
             (Offer.set_quantity (Offer.quantity (offer_doc d) + n) (offer_doc d))
             (Some t).

Fixpoint update_first (o : oid) (f : OfferDoc -> OfferDoc) (l : list OfferDoc)
  : list OfferDoc :=
  match l with
  | [] => []
  | d :: rest => if has_oid o d then f d :: rest else d :: update_first o f rest
  end.

(** [db["offer"].update_one({"_id": o}, patch)]: the first document with
    that id is patched; nothing happens when there is none. *)
Definition coll_update_one (o : oid) (n t : Z) (d : DB) : DB :=
  mkDB (update_first o (patch n t) (coll_offer d))
       (coll_reservation d) (coll_vendor d) (next_oid d).

(** Modelled from the spec: [create_document] of the store adapter
    (database.py, absent from the sources), per "insert(collectionName,
    document) -> id": the document is persisted under a new unique id, which
    is returned as a string. *)
Definition insert_offer (x : Offer.t) (d : DB) : DB * string :=
  (mkDB ((coll_offer d ++ [mkOfferDoc (next_oid d) x None])%list)
        (coll_reservation d) (coll_vendor d) (N.succ (next_oid d)),
   oid_str (next_oid d)).

Definition insert_reservation (x : Reservation.t) (d : DB) : DB * string :=
  (mkDB (coll_offer d)
        (coll_reservation d ++ [mkReservationDoc (next_oid d) x])
        (coll_vendor d) (N.succ (next_oid d)),
   oid_str (next_oid d)).

Definition insert_vendor (x : Vendor.t) (d : DB) : DB * string :=
  (mkDB (coll_offer d) (coll_reservation d)
        (coll_vendor d ++ [mkVendorDoc (next_oid d) x])
        (N.succ (next_oid d)),
   oid_str (next_oid d)).

(** Modelled from the spec: [get_documents] of the store adapter
    (database.py, absent from the sources), per "find(collectionName, filter,
    limit) -> sequence of documents": the documents of the collection that
    satisfy the filter, in store order, at most [limit] of them. *)
Definition coll_find (filt : Filter) (limit : nat) (d : DB) : list OfferDoc :=
  firstn limit (filter (matches filt) (coll_offer d)).

Fixpoint assoc (k : string) (l : list (string * string)) : option string :=
  match l with
  | [] => None
  | (k', v) :: rest => if String.eqb k k' then Some v else assoc k rest
  end.

(** One call to the store.  It raises when no database is configured, and
    when the outage schedule says so; otherwise it is applied to the
    database in one piece. *)
Definition store_call {X : Type} (f : DB -> DB * X) (w : World)
  : World * (Exn + X) :=
  match db w with
  | None => (w, inl StoreUnavailableError)
  | Some d =>
      match faults w with
      | true :: fs => (with_faults fs w, inl StoreUnavailableError)
      | fs =>
          let (d', x) := f d in (with_db d' (tl fs) w, inr x)
      end
  end.

Definition exec {X : Type} (op : Eff X) (w : World) : World * (Exn + X) :=
  match op in Eff X return World * (Exn + X) with
  | db_is_None =>
      (w, inr (match db w with None => true | Some _ => false end))
  | getenv name => (w, inr (assoc name (environ w)))
  | utcnow => (w, inr (clock w))
  | find_one o => store_call (fun d => (d, coll_find_one o d)) w
  | update_one o n t => store_call (fun d => (coll_update_one o n t d, tt)) w
  | create_document_vendor x => store_call (insert_vendor x) w
  | create_document_offer x => store_call (insert_offer x) w
  | create_document_reservation x => store_call (insert_reservation x) w
  | get_documents filt limit => store_call (fun d => (d, coll_find filt limit d)) w
  end.

(** Sequential execution: the handler runs to its end before anything else
    touches the world.  An exception ends the handler; what it wrote to the
    store before stays written. *)
Fixpoint run {A : Type} (p : Prog A) (w : World) : World * (Exn + A) :=
  match p with
  | Ret a => (w, inr a)
  | Raise e => (w, inl e)
  | Do op k =>
      match exec op w with
      | (w', inl e) => (w', inl e)
      | (w', inr x) => run (k x) w'
      end
  end.

(** Several handlers at once.  A request handler that is being served is a
    program that has run up to some store call; [step] lets it perform that
    one call.  A schedule names, step by step, which of the handlers in the
    pool moves next, so that the calls of different handlers interleave. *)
Definition step {A : Type} (p : Prog A) (w : World) : World * Prog A :=
  match p with
  | Do op k =>
      match exec op w with
      | (w', inl e) => (w', Raise e)
      | (w', inr x) => (w', k x)
      end
  | _ => (w, p)
  end.

Fixpoint set_nth {A : Type} (i : nat) (x : A) (l : list A) : list A :=
  match l, i with
  | [], _ => []
  | _ :: rest, O => x :: rest
  | y :: rest, S j => y :: set_nth j x rest
  end.

Fixpoint sched {A : Type} (schedule : list nat) (w : World)
  (pool : list (Prog A)) : World * list (Prog A) :=
  match schedule with
  | [] => (w, pool)
  | i :: rest =>
      match nth_error pool i with
      | Some p => let (w', p') := step p w in sched rest w' (set_nth i p' pool)
      | None => sched rest w pool
      end
  end.

(** A sequence of requests served one after the other. *)
Fixpoint serve (reqs : list Request) (w : World) : World :=
  match reqs with
  | [] => w
  | r :: rest => serve rest (fst (run (handle r) w))
  end.

(** ** Vocabulary for the statements *)

Definition not_found : Exn := HTTPException 404 "Offer not found".
Definition not_enough : Exn := HTTPException 400 "Not enough quantity".

(** The world after a store call that read the database without writing. *)
Definition after_read (w : World) (d : DB) : World :=
  with_db d (tl (faults w)) w.

Definition not_configured : Exn :=
  HTTPException 500 "Database not configured".

(** The record [reserve] builds for a request. *)
Definition reservation_of (res : ReservationIn.t) : Reservation.t :=
  Reservation.mk (ReservationIn.offer_id res) (ReservationIn.customer_name res)
                 (ReservationIn.customer_phone res) (ReservationIn.quantity res)
                 "reserved".

(** The database with the record inserted, and then with the offer's
    quantity decremented as well. *)
Definition inserted (res : ReservationIn.t) (d : DB) : DB :=
  fst (insert_reservation (reservation_of res) d).

Definition committed (res : ReservationIn.t) (o : oid) (now : Z) (d : DB) : DB :=
  coll_update_one o (- ReservationIn.quantity res) now (inserted res d).

(** The collections of a world; empty when no database is configured. *)
Definition offers (w : World) : list OfferDoc :=
  match db w with Some d => coll_offer d | None => [] end.

Definition reservations (w : World) : list ReservationDoc :=
  match db w with Some d => coll_reservation d | None => [] end.

(** The offer a lookup by id yields. *)
Definition lookup (o : oid) (w : World) : option OfferDoc :=
  match db w with Some d => coll_find_one o d | None => None end.

Definition cancelled (r : ReservationDoc) : bool :=
  String.eqb (Reservation.status (reservation_doc r)) "cancelled".

(** A reservation refers to the offer its [offer_id] string denotes. *)
Definition refers_to (o : oid) (r : ReservationDoc) : bool :=
  match ObjectId (Reservation.offer_id (reservation_doc r)) with
  | Some o' => N.eqb o' o
  | None => false
  end.

Definition counts_for (o : oid) (r : ReservationDoc) : bool :=
  refers_to o r && negb (cancelled r).

Fixpoint units (l : list ReservationDoc) : Z :=
  match l with
  | [] => 0
  | r :: rest => Reservation.quantity (reservation_doc r) + units rest
  end.

(** Units held by the reservations that refer to offer [o] and are not
    cancelled. *)
Definition reserved_units (o : oid) (l : list ReservationDoc) : Z :=
  units (filter (counts_for o) l).

Definition nonneg (l : list OfferDoc) : Prop :=
  forall x, In x l -> 0 <= Offer.quantity (offer_doc x).

(** What the store guarantees about ids: they are unique within the offer
    collection, and every id in use, or mentioned by a reservation, was
    handed out before [next_oid]. *)
Record wf (d : DB) : Prop := mk_wf {
  wf_nodup : NoDup (map offer_oid (coll_offer d));
  wf_offers : forall x, In x (coll_offer d) -> (offer_oid x < next_oid d)%N;
  wf_refs : forall r o, In r (coll_reservation d) ->
              ObjectId (Reservation.offer_id (reservation_doc r)) = Some o ->
              (o < next_oid d)%N
}.

Definition wf_world (w : World) : Prop :=
  match db w with Some d => wf d | None => True end.

(** What a single request may do to the database when every store call it
    makes is answered ... *)
Inductive db_step (d : DB) : DB -> Prop :=
| step_none : db_step d d
| step_vendor (x : Vendor.t) : db_step d (fst (insert_vendor x d))
| step_offer (x : Offer.t) :
    Offer.valid x = true -> db_step d (fst (insert_offer x d))
| step_reserved (res : ReservationIn.t) (o : oid) (offer : OfferDoc) (now : Z) :
    ObjectId (ReservationIn.offer_id res) = Some o ->
    coll_find_one o d = Some offer ->
    1 <= ReservationIn.quantity res <= Offer.quantity (offer_doc offer) ->
    db_step d (committed res o now d).

(** ... and what it leaves behind when the store fails between the two
    writes of a reservation. *)
Inductive db_torn (d : DB) : DB -> Prop :=
| torn_insert (res : ReservationIn.t) (o : oid) (offer : OfferDoc) :
    ObjectId (ReservationIn.offer_id res) = Some o ->
    coll_find_one o d = Some offer ->
    1 <= ReservationIn.quantity res <= Offer.quantity (offer_doc offer) ->
    db_torn d (inserted res d).

(** The admin code [create_offer] requires, and whether a request passes
    the gate: the required code is empty, or the supplied one equals it. *)
Definition required_code (w : World) : string :=
  match assoc "ADMIN_CODE" (environ w) with Some c => c | None => "admin123" end.

Definition admitted (admin_code : option string) (w : World) : bool :=
  negb (truthy (Some (required_code w))
        && negb (opt_str_eqb admin_code (Some (required_code w)))).

Definition invalid_admin_code : Exn := HTTPException 401 "Invalid admin code".
Definition price_too_high : Exn :=
  HTTPException 400 "Price must be <= original price".

Definition quantity_of (o : oid) (w : World) : option Z :=
  option_map (fun x => Offer.quantity (offer_doc x)) (lookup o w).

(** ** Sample data *)

Definition bag (q : Z) (active : bool) : Offer.t :=
  Offer.mk "Surprise Bag" None "Furra Tirana" "Tirana" None (Some "bakery")
           ["bakery"; "vegan"] 10%float 4%float q 0 7200 None active.

Definition bag_oid : oid := 10%N.
Definition bag_id : string := "00000000000000000000000a".

(** A configured store holding one offer of [q] units, answering as the
    outage schedule [fs] says. *)
Definition shop_db (q : Z) (active : bool) : DB :=
  mkDB [mkOfferDoc bag_oid (bag q active) None] [] [] 11%N.

Definition shop (q : Z) (active : bool) (fs : list bool) : World :=
  mkWorld (Some (shop_db q active)) [] 1000 fs.

Definition ask (q : Z) : ReservationIn.t :=
  ReservationIn.mk bag_id "Ana" "0690000000" q.

(** An offer priced above its original price. *)
Definition overpriced : Offer.t :=
  Offer.mk "Surprise Bag" None "Furra Tirana" "Tirana" None None []
           10%float 12%float 3 0 7200 None true.

(** A configured store with nothing in it. *)
Definition empty_store (fs : list bool) : World :=
  mkWorld (Some (mkDB [] [] [] 0%N)) [] 1000 fs.

Definition first_id : string := "000000000000000000000000".

(** The sample offer put on sale, and [q] units of it reserved. *)
Definition open_bag : Request := POST_offers (bag 5 true) (Some "admin123").

Definition take (q : Z) : Request :=
  POST_reservations (ReservationIn.mk first_id "Ana" "0690000000" q).

(** A process started without a database. *)
Definition no_store : World := mkWorld None [] 1000 [].

(** The sample offer as the store holds it. *)
Definition bag_doc (q : Z) (active : bool) : OfferDoc :=
  mkOfferDoc bag_oid (bag q active) None.

(** A reservation for an id that no sample offer has. *)
Definition ask_unknown (q : Z) : ReservationIn.t :=
  ReservationIn.mk first_id "Ana" "0690000000" q.

(** A string of 24 characters with white space between its last bytes. *)
Definition spaced_id : string := "00000000000000000000 0a ".

(** A search engine for the examples: patterns are taken literally, and
    option "i" ignores case. *)
Definition lower (c : ascii) : ascii :=
  let n := N_of_ascii c in
  if ((65 <=? n) && (n <=? 90))%N then ascii_of_N (n + 32) else c.

Fixpoint lower_string (s : string) : string :=
  match s with
  | EmptyString => EmptyString
  | String c rest => String (lower c) (lower_string rest)
  end.

Fixpoint contains (p s : string) : bool :=
  String.prefix p s
  || match s with
     | EmptyString => false
     | String _ rest => contains p rest
     end.

Definition literal_search (pattern options s : string) : bool :=
  if String.eqb options "i" then contains (lower_string pattern) (lower_string s)
  else contains pattern s.

(** ** Vocabulary for further statements *)

(** The ids of 12 bytes are the numbers below this bound. *)
Definition oid_bound : N := (16 ^ 24)%N.

(** The offers a listing asks for, said directly: active, in stock, in the
    given city and of the given cuisine when one is given, and with the
    query found in the title, the vendor's name or one of the tags when a
    query is given.  An empty string counts as not given. *)
Definition listed (city cuisine q : option string) (doc : OfferDoc) : bool :=
  let o := offer_doc doc in
  Offer.active o
  && (0 <? Offer.quantity o)
  && (if truthy city then opt_str_eqb (Some (Offer.city o)) city else true)
  && (if truthy cuisine then opt_str_eqb (Offer.cuisine o) cuisine else true)
  && match q with
     | Some pat =>
         if truthy q
         then regex_search pat "i" (Offer.title o)
              || regex_search pat "i" (Offer.vendor_name o)
              || existsb (regex_search pat "i") (Offer.tags o)
         else true
     | None => true
     end.

(** The stored offer [x'] is the stored offer [x] but for its quantity and
    its timestamp; the quantity has not grown. *)
Definition later_of (x x' : OfferDoc) : Prop :=
  offer_oid x' = offer_oid x /\
  offer_doc x' = Offer.set_quantity (Offer.quantity (offer_doc x')) (offer_doc x) /\
  Offer.quantity (offer_doc x') <= Offer.quantity (offer_doc x).

(** A stored offer passes the price check of [create_offer]. *)
Definition price_checked (x : OfferDoc) : Prop :=
  PrimFloat.ltb (Offer.original_price (offer_doc x)) (Offer.price (offer_doc x))
  = false.

(** A reservation record as [reserve] writes it: at least one unit, status
    "reserved", for an offer that is in the store. *)
Definition sound_reservation (d : DB) (r : ReservationDoc) : Prop :=
  1 <= Reservation.quantity (reservation_doc r) /\
  Reservation.status (reservation_doc r) = "reserved" /\
  exists o x, ObjectId (Reservation.offer_id (reservation_doc r)) = Some o /\
              coll_find_one o d = Some x.

(** *** Handlers in flight *)

(** A handler that has ended. *)
Definition finished (p : Prog Response) : Prop :=
  match p with
  | Do _ _ => False
  | _ => True
  end.

(** The units a handler is about to take from offer [o] with the call it is
    standing at. *)
Definition owed_at_update (o : oid) (p : Prog Response) : Z :=
  match p with
  | Do op _ =>
      match op with
      | update_one o' n _ => if N.eqb o' o then - n else 0
      | _ => 0
      end
  | _ => 0
  end.

(** The units a handler in flight has written into a reservation record for
    offer [o] and not yet taken from the offer: those of a handler standing
    between its insert and the end of its update. *)
Definition owed (o : oid) (p : Prog Response) : Z :=
  match p with
  | Do op k =>
      match op in Eff X return (X -> Prog Response) -> Z with
      | utcnow => fun k => owed_at_update o (k 0)
      | update_one o' n _ => fun _ => if N.eqb o' o then - n else 0
      | _ => fun _ => 0
      end k
  | _ => 0
  end.

Fixpoint owed_all (o : oid) (pool : list (Prog Response)) : Z :=
  match pool with
  | [] => 0
  | p :: rest => owed o p + owed_all o rest
  end.

(** The shapes a request handler goes through.  [due o q]: standing at the
    update that takes [q] units from [o], with nothing left to do after it.
    [pending o q]: the record is written, the update is the next store call.
    [calm]: anywhere before the insert of a record, or ended. *)
Inductive due (o : oid) (q : Z) : Prog Response -> Prop :=
| due_update (t : Z) (k : unit -> Prog Response) :
    (forall u, finished (k u)) -> due o q (Do (update_one o (- q) t) k).

Inductive pending (o : oid) (q : Z) : Prog Response -> Prop :=
| pending_clock (k : Z -> Prog Response) :
    (forall t, due o q (k t)) -> pending o q (Do utcnow k)
| pending_due (p : Prog Response) : due o q p -> pending o q p.

Inductive calm : Prog Response -> Prop :=
| calm_ret (r : Response) : calm (Ret r)
| calm_raise (e : Exn) : calm (Raise e)
| calm_db (k : bool -> Prog Response) :
    (forall b, calm (k b)) -> calm (Do db_is_None k)
| calm_env (name : string) (k : option string -> Prog Response) :
    (forall v, calm (k v)) -> calm (Do (getenv name) k)
| calm_find (o : oid) (k : option OfferDoc -> Prog Response) :
    (forall x, calm (k x)) -> calm (Do (find_one o) k)
| calm_docs (filt : Filter) (limit : nat) (k : list OfferDoc -> Prog Response) :
    (forall l, calm (k l)) -> calm (Do (get_documents filt limit) k)
| calm_vendor (v : Vendor.t) (k : string -> Prog Response) :
    (forall id, calm (k id)) -> calm (Do (create_document_vendor v) k)
| calm_offer (x : Offer.t) (k : string -> Prog Response) :
    (forall id, calm (k id)) -> calm (Do (create_document_offer x) k)
| calm_reservation (r : Reservation.t) (o : oid) (k : string -> Prog Response) :
    ObjectId (Reservation.offer_id r) = Some o ->
    Reservation.status r = "reserved" ->
    (forall id, pending o (Reservation.quantity r) (k id)) ->
    calm (Do (create_document_reservation r) k).

Definition in_flight (p : Prog Response) : Prop :=
  calm p \/ exists o q, pending o q p.

(** Where the units of an offer are: in reservation records, and in the
    offer itself. *)
Definition holdings (o : oid) (d : DB) (x : OfferDoc) : Z :=
  reserved_units o (coll_reservation d) + Offer.quantity (offer_doc x).

(** ** Proof steps used more than once *)

(** Enter [reserve] past its check of the database handle. *)
Ltac enter_reserve Hd :=
  unfold reserve, call, parse_oid, Reservation_init;
  cbn [bind run exec]; rewrite Hd; cbn [bind run exec].

(** Close a case in which the request leaves the database as it was. *)
Ltac step_same d :=
  exists d; unfold after_read; cbn;
  split; [assumption || reflexivity | split; [left; apply step_none |]].

(** ** Basic facts about programs and the store *)

Lemma run_bind {A B : Type} (p : Prog A) (f : A -> Prog B) (w : World) :
  run (bind p f) w =
  match run p w with
  | (w', inl e) => (w', inl e)
  | (w', inr a) => run (f a) w'
  end.
Proof.
  revert w; induction p as [a | e | X op k IH]; intro w; cbn [bind run].
  - reflexivity.
  - reflexivity.
  - destruct (exec op w) as [w' [e | x]]; [reflexivity | apply IH].
Qed.

(** Letting a handler perform its next call and then run to its end is the
    same as running it to its end. *)
Lemma run_step {A : Type} (p : Prog A) (w : World) :
  run (snd (step p w)) (fst (step p w)) = run p w.
Proof.
  destruct p as [a | e | X op k]; cbn [step run fst snd]; try reflexivity.
  destruct (exec op w) as [w' [e | x]]; reflexivity.
Qed.

(** A handler alone in the pool: whatever the number of steps it has been
    given, what is left of it finishes as the sequential run does. *)
Lemma sched_alone {A : Type} (n : nat) (p : Prog A) (w : World) :
  exists p', snd (sched (repeat O n) w [p]) = [p'] /\
             run p' (fst (sched (repeat O n) w [p])) = run p w.
Proof.
  revert p w; induction n as [| n IH]; intros p w; cbn [repeat sched].
  - exists p; split; reflexivity.
  - cbn [nth_error]. destruct (step p w) as [w' p'] eqn:E. cbn [set_nth].
    destruct (IH p' w') as [p'' [H1 H2]]. exists p''. split; [exact H1 |].
    rewrite H2. pose proof (run_step p w) as R. rewrite E in R. exact R.
Qed.

Lemma store_call_ok {X : Type} (f : DB -> DB * X) (w : World) (d : DB) :
  db w = Some d -> hd false (faults w) = false ->
  store_call f w = (with_db (fst (f d)) (tl (faults w)) w, inr (snd (f d))).
Proof.
  intros Hd Hf. unfold store_call. rewrite Hd.
  destruct (faults w) as [| [|] fs]; cbn in Hf; try discriminate;
    destruct (f d); reflexivity.
Qed.

Lemma store_call_fault {X : Type} (f : DB -> DB * X) (w : World) (d : DB)
  (fs : list bool) :
  db w = Some d -> faults w = true :: fs ->
  store_call f w = (with_faults fs w, inl StoreUnavailableError).
Proof.
  intros Hd Hf. unfold store_call. rewrite Hd, Hf. reflexivity.
Qed.

Lemma store_call_unconfigured {X : Type} (f : DB -> DB * X) (w : World) :
  db w = None -> store_call f w = (w, inl StoreUnavailableError).
Proof.
  intros Hd. unfold store_call. rewrite Hd. reflexivity.
Qed.

Lemma has_oid_true (o : oid) (d : OfferDoc) :
  has_oid o d = true <-> offer_oid d = o.
Proof. unfold has_oid. apply N.eqb_eq. Qed.

Lemma find_one_oid (o : oid) (d : DB) (x : OfferDoc) :
  coll_find_one o d = Some x -> offer_oid x = o /\ In x (coll_offer d).
Proof.
  unfold coll_find_one. intro H. apply find_some in H.
  destruct H as [Hin Ho]. split; [apply has_oid_true, Ho | exact Hin].
Qed.

Lemma find_update_first (o : oid) (f : OfferDoc -> OfferDoc)
  (l : list OfferDoc) :
  (forall x, offer_oid (f x) = offer_oid x) ->
  find (has_oid o) (update_first o f l) = option_map f (find (has_oid o) l).
Proof.
  intro Hf. induction l as [| x l IH]; cbn [update_first find]; [reflexivity |].
  destruct (has_oid o x) eqn:E; cbn [find].
  - assert (has_oid o (f x) = true) as ->
        by (apply has_oid_true; rewrite Hf; apply has_oid_true, E).
    reflexivity.
  - rewrite E. exact IH.
Qed.

Lemma find_app_l {A : Type} (p : A -> bool) (l1 l2 : list A) (x : A) :
  find p l1 = Some x -> find p (l1 ++ l2) = Some x.
Proof.
  induction l1 as [| y l1 IH]; cbn [find app]; [discriminate |].
  destruct (p y); [trivial | exact IH].
Qed.

(** *** Object ids *)

Lemma fromhex_hex (s : string) (acc : N) (o : N) :
  fromhex s acc = Some o ->
  forall c, In c (list_ascii_of_string s) -> hex_digit c <> None.
Proof.
  revert acc; induction s as [| a s IH]; intros acc H c Hc; cbn in *.
  - contradiction.
  - destruct (hex_digit a) as [h |] eqn:E; [| discriminate].
    destruct Hc as [<- | Hc]; [congruence | eapply IH; eauto].
Qed.

Lemma fromhex_total (s : string) (acc : N) :
  (forall c, In c (list_ascii_of_string s) -> hex_digit c <> None) ->
  exists o, fromhex s acc = Some o.
Proof.
  revert acc; induction s as [| a s IH]; intros acc H; cbn in *.
  - eauto.
  - destruct (hex_digit a) as [h |] eqn:E.
    + apply IH. intros c Hc. apply H. right; exact Hc.
    + exfalso. apply (H a); [left; reflexivity | exact E].
Qed.

Lemma hex_digit_not_space (c : ascii) (h : N) :
  hex_digit c = Some h -> is_space c = false.
Proof.
  destruct c as [[|] [|] [|] [|] [|] [|] [|] [|]]; intro H;
    try reflexivity; vm_compute in H; discriminate.
Qed.

(** On a string of hexadecimal digits, an even number of them,
    [bytes.fromhex] yields half as many bytes, of the value of the digits. *)
Lemma bytes_fromhex_digits (n : nat) (s : string) (acc v : N) :
  String.length s = (2 * n)%nat ->
  fromhex s acc = Some v ->
  exists b, bytes_fromhex s = Some b /\ List.length b = n /\
            bytes_value b acc = v.
Proof.
  revert s acc; induction n as [| n IH]; intros s acc L H.
  - destruct s; [| discriminate]. cbn in H. injection H as <-.
    exists []. auto.
  - destruct s as [| c s]; [discriminate |].
    destruct s as [| c' r]; [cbn in L; lia |].
    cbn [fromhex] in H.
    destruct (hex_digit c) as [top |] eqn:Ec; [| discriminate].
    destruct (hex_digit c') as [bot |] eqn:Ec'; [| discriminate].
    cbn [String.length] in L.
    destruct (IH r (16 * (16 * acc + top) + bot)%N) as [b [B1 [B2 B3]]];
      [lia | exact H |].
    exists ((16 * top + bot)%N :: b). cbn [bytes_fromhex].
    rewrite (hex_digit_not_space c top Ec), Ec, Ec', B1.
    cbn [option_map List.length bytes_value].
    split; [reflexivity | split; [congruence |]].
    rewrite <- B3. f_equal. lia.
Qed.

Lemma ObjectId_accepts (s : string) :
  String.length s = 24%nat ->
  (forall c, In c (list_ascii_of_string s) -> hex_digit c <> None) ->
  exists o, ObjectId s = Some o.
Proof.
  intros L H. unfold ObjectId. rewrite L. cbn [Nat.eqb].
  destruct (fromhex_total s 0%N H) as [v Hv].
  destruct (bytes_fromhex_digits 12 s 0%N v L Hv) as [b [B _]].
  rewrite B. cbn. eauto.
Qed.

(** An id of fewer than 12 bytes lies outside the store's range. *)
Lemma short_id_out_of_range (b : list N) :
  List.length b <> 12%nat -> (16 ^ 24 <= oid_of_bytes b)%N.
Proof.
  intro H. unfold oid_of_bytes. apply Nat.eqb_neq in H. rewrite H. nia.
Qed.

(** [ObjectId] accepts no string that is not 24 characters long. *)
Lemma ObjectId_length (s : string) (o : oid) :
  ObjectId s = Some o -> String.length s = 24%nat.
Proof.
  unfold ObjectId. destruct (Nat.eqb_spec (String.length s) 24) as [L | L];
    [trivial | discriminate].
Qed.

(** ** The reservation handler, path by path *)

Lemma faults_cases (l : list bool) :
  hd false l = false \/ exists fs, l = true :: fs.
Proof. destruct l as [| [|] fs]; cbn; eauto. Qed.

Lemma reserve_path_unconfigured (res : ReservationIn.t) (w : World) :
  db w = None -> run (reserve res) w = (w, inl not_configured).
Proof. intro Hd. enter_reserve Hd. reflexivity. Qed.

Lemma reserve_path_invalid_id (res : ReservationIn.t) (w : World) (d : DB) :
  db w = Some d ->
  ObjectId (ReservationIn.offer_id res) = None ->
  run (reserve res) w = (w, inl (InvalidId (ReservationIn.offer_id res))).
Proof. intros Hd Ho. enter_reserve Hd. rewrite Ho. reflexivity. Qed.

Lemma reserve_path_lookup_fault (res : ReservationIn.t) (w : World) (d : DB)
  (o : oid) (fs : list bool) :
  db w = Some d ->
  ObjectId (ReservationIn.offer_id res) = Some o ->
  faults w = true :: fs ->
  run (reserve res) w = (with_faults fs w, inl StoreUnavailableError).
Proof.
  intros Hd Ho Hf. enter_reserve Hd. rewrite Ho. cbn [bind run exec].
  rewrite (store_call_fault _ w d fs Hd Hf). reflexivity.
Qed.

Lemma reserve_path_not_found (res : ReservationIn.t) (w : World) (d : DB)
  (o : oid) :
  db w = Some d ->
  ObjectId (ReservationIn.offer_id res) = Some o ->
  hd false (faults w) = false ->
  coll_find_one o d = None ->
  run (reserve res) w = (after_read w d, inl not_found).
Proof.
  intros Hd Ho Hf Hx. enter_reserve Hd. rewrite Ho. cbn [bind run exec].
  rewrite (store_call_ok _ w d Hd Hf). cbn [fst snd]. rewrite Hx. reflexivity.
Qed.

Lemma reserve_path_not_enough (res : ReservationIn.t) (w : World) (d : DB)
  (o : oid) (offer : OfferDoc) :
  db w = Some d ->
  ObjectId (ReservationIn.offer_id res) = Some o ->
  hd false (faults w) = false ->
  coll_find_one o d = Some offer ->
  Offer.quantity (offer_doc offer) < ReservationIn.quantity res ->
  run (reserve res) w = (after_read w d, inl not_enough).
Proof.
  intros Hd Ho Hf Hx Hq. enter_reserve Hd. rewrite Ho. cbn [bind run exec].
  rewrite (store_call_ok _ w d Hd Hf). cbn [fst snd]. rewrite Hx.
  apply Z.ltb_lt in Hq. rewrite Hq. reflexivity.
Qed.

Lemma reserve_path_invalid_quantity (res : ReservationIn.t) (w : World)
  (d : DB) (o : oid) (offer : OfferDoc) :
  db w = Some d ->
  ObjectId (ReservationIn.offer_id res) = Some o ->
  hd false (faults w) = false ->
  coll_find_one o d = Some offer ->
  ReservationIn.quantity res <= Offer.quantity (offer_doc offer) ->
  ReservationIn.quantity res < 1 ->
  run (reserve res) w = (after_read w d, inl (ValidationError "Reservation")).
Proof.
  intros Hd Ho Hf Hx Hq H1. enter_reserve Hd. rewrite Ho. cbn [bind run exec].
  rewrite (store_call_ok _ w d Hd Hf). cbn [fst snd]. rewrite Hx.
  apply Z.ltb_ge in Hq. rewrite Hq. apply Z.ltb_lt in H1. rewrite H1.
  reflexivity.
Qed.

Lemma reserve_path_insert_fault (res : ReservationIn.t) (w : World) (d : DB)
  (o : oid) (offer : OfferDoc) (fs : list bool) :
  db w = Some d ->
  ObjectId (ReservationIn.offer_id res) = Some o ->
  hd false (faults w) = false ->
  coll_find_one o d = Some offer ->
  1 <= ReservationIn.quantity res <= Offer.quantity (offer_doc offer) ->
  tl (faults w) = true :: fs ->
  run (reserve res) w = (with_db d fs w, inl StoreUnavailableError).
Proof.
  intros Hd Ho Hf Hx [H1 Hq] Hf2. enter_reserve Hd. rewrite Ho.
  cbn [bind run exec].
  rewrite (store_call_ok _ w d Hd Hf). cbn [fst snd]. rewrite Hx.
  apply Z.ltb_ge in Hq. rewrite Hq. apply Z.ltb_ge in H1. rewrite H1.
  cbn [bind run exec]. unfold store_call. cbn [db with_db faults].
  rewrite Hf2. reflexivity.
Qed.

Lemma reserve_path_update_fault (res : ReservationIn.t) (w : World) (d : DB)
  (o : oid) (offer : OfferDoc) (fs : list bool) :
  db w = Some d ->
  ObjectId (ReservationIn.offer_id res) = Some o ->
  hd false (faults w) = false ->
  coll_find_one o d = Some offer ->
  1 <= ReservationIn.quantity res <= Offer.quantity (offer_doc offer) ->
  hd false (tl (faults w)) = false ->
  tl (tl (faults w)) = true :: fs ->
  run (reserve res) w = (with_db (inserted res d) fs w, inl StoreUnavailableError).
Proof.
  intros Hd Ho Hf Hx [H1 Hq] Hf2 Hf3. enter_reserve Hd. rewrite Ho.
  cbn [bind run exec].
  rewrite (store_call_ok _ w d Hd Hf). cbn [fst snd]. rewrite Hx.
  apply Z.ltb_ge in Hq. rewrite Hq. apply Z.ltb_ge in H1. rewrite H1.
  cbn [bind run exec].
  rewrite (store_call_ok _ (with_db d (tl (faults w)) w) d eq_refl Hf2).
  cbn [fst snd run exec faults with_db].
  unfold store_call. cbn [db with_db faults]. rewrite Hf3. reflexivity.
Qed.

Lemma reserve_path_ok (res : ReservationIn.t) (w : World) (d : DB)
  (o : oid) (offer : OfferDoc) :
  db w = Some d ->
  ObjectId (ReservationIn.offer_id res) = Some o ->
  hd false (faults w) = false ->
  coll_find_one o d = Some offer ->
  1 <= ReservationIn.quantity res <= Offer.quantity (offer_doc offer) ->
  hd false (tl (faults w)) = false ->
  hd false (tl (tl (faults w))) = false ->
  run (reserve res) w =
  (with_db (committed res o (clock w) d) (tl (tl (tl (faults w)))) w,
   inr (RReserved (oid_str (next_oid d)) "Reserved")).
Proof.
  intros Hd Ho Hf Hx [H1 Hq] Hf2 Hf3. enter_reserve Hd. rewrite Ho.
  cbn [bind run exec].
  rewrite (store_call_ok _ w d Hd Hf). cbn [fst snd]. rewrite Hx.
  apply Z.ltb_ge in Hq. rewrite Hq. apply Z.ltb_ge in H1. rewrite H1.
  cbn [bind run exec].
  rewrite (store_call_ok _ (with_db d (tl (faults w)) w) d eq_refl Hf2).
  cbn [fst snd run exec faults with_db clock].
  unfold store_call. cbn [db with_db faults environ clock].
  destruct (tl (tl (faults w))) as [| [|] fs]; cbn in Hf3; try discriminate;
    reflexivity.
Qed.

(** ** The other handlers, path by path *)

Lemma create_offer_path_rejected (offer : Offer.t) (admin_code : option string)
  (w : World) :
  admitted admin_code w = false ->
  run (create_offer offer admin_code) w = (w, inl invalid_admin_code).
Proof.
  unfold admitted, required_code, create_offer, call. cbn [bind run exec].
  intro H. apply negb_false_iff in H. rewrite H. reflexivity.
Qed.

Lemma create_offer_path_price (offer : Offer.t) (admin_code : option string)
  (w : World) :
  admitted admin_code w = true ->
  PrimFloat.ltb (Offer.original_price offer) (Offer.price offer) = true ->
  run (create_offer offer admin_code) w = (w, inl price_too_high).
Proof.
  unfold admitted, required_code, create_offer, call. cbn [bind run exec].
  intros H P. apply negb_true_iff in H. rewrite H, P. reflexivity.
Qed.

Lemma create_offer_path_insert (offer : Offer.t) (admin_code : option string)
  (w : World) :
  admitted admin_code w = true ->
  PrimFloat.ltb (Offer.original_price offer) (Offer.price offer) = false ->
  run (create_offer offer admin_code) w =
  match store_call (insert_offer offer) w with
  | (w', inl e) => (w', inl e)
  | (w', inr offer_id) => (w', inr (RId offer_id))
  end.
Proof.
  unfold admitted, required_code, create_offer, call. cbn [bind run exec].
  intros H P. apply negb_true_iff in H. rewrite H, P. cbn [bind run exec].
  destruct (store_call (insert_offer offer) w) as [w' [e | x]]; reflexivity.
Qed.

Lemma get_offer_path_unconfigured (offer_id : string) (w : World) :
  db w = None -> run (get_offer offer_id) w = (w, inl not_configured).
Proof.
  intro Hd. unfold get_offer, call. cbn [bind run exec]. rewrite Hd.
  reflexivity.
Qed.

Lemma get_offer_path_invalid_id (offer_id : string) (w : World) (d : DB) :
  db w = Some d -> ObjectId offer_id = None ->
  run (get_offer offer_id) w = (w, inl (InvalidId offer_id)).
Proof.
  intros Hd Ho. unfold get_offer, call, parse_oid. cbn [bind run exec].
  rewrite Hd, Ho. reflexivity.
Qed.

Lemma get_offer_path_lookup (offer_id : string) (w : World) (d : DB) (o : oid) :
  db w = Some d -> ObjectId offer_id = Some o ->
  run (get_offer offer_id) w =
  match store_call (fun d => (d, coll_find_one o d)) w with
  | (w', inl e) => (w', inl e)
  | (w', inr None) => (w', inl not_found)
  | (w', inr (Some doc)) =>
      (w', inr (ROffer (oid_str (offer_oid doc)) (offer_doc doc)
                       (offer_updated_at doc)))
  end.
Proof.
  intros Hd Ho. unfold get_offer, call, parse_oid. cbn [bind run exec].
  rewrite Hd, Ho. cbn [bind run exec].
  destruct (store_call _ w) as [w' [e | [doc |]]]; reflexivity.
Qed.

Lemma list_offers_path (city cuisine q : option string) (w : World) :
  run (list_offers city cuisine q) w =
  match store_call
          (fun d => (d, coll_find (list_filter city cuisine q) 100 d)) w with
  | (w', inl e) => (w', inl e)
  | (w', inr docs) => (w', inr (ROffers (map offer_out docs)))
  end.
Proof.
  unfold list_offers, call. cbn [bind run exec].
  destruct (store_call _ w) as [w' [e | docs]]; reflexivity.
Qed.

Lemma create_vendor_path (vendor : Vendor.t) (w : World) :
  run (create_vendor vendor) w =
  match store_call (insert_vendor vendor) w with
  | (w', inl e) => (w', inl e)
  | (w', inr vendor_id) => (w', inr (RId vendor_id))
  end.
Proof.
  unfold create_vendor, call. cbn [bind run exec].
  destruct (store_call _ w) as [w' [e | x]]; reflexivity.
Qed.

(** A store call either fails and leaves the database alone, or is applied
    to it. *)
Lemma store_call_db {X : Type} (f : DB -> DB * X) (w : World) (d : DB) :
  db w = Some d ->
  (db (fst (store_call f w)) = Some d /\
   snd (store_call f w) = inl StoreUnavailableError /\
   exists fs, faults w = true :: fs) \/
  (db (fst (store_call f w)) = Some (fst (f d)) /\
   snd (store_call f w) = inr (snd (f d)) /\
   faults (fst (store_call f w)) = tl (faults w) /\
   hd false (faults w) = false).
Proof.
  intro Hd. destruct (faults_cases (faults w)) as [Hf | [fs Hf]].
  - right. rewrite (store_call_ok f w d Hd Hf). cbn. auto.
  - left. rewrite (store_call_fault f w d fs Hd Hf). cbn. eauto.
Qed.

(** ** Every request is one step of the database *)

Lemma handle_unconfigured (req : Request) (w : World) :
  db w = None -> fst (run (handle req) w) = w.
Proof.
  intro Hd. destruct req as [v | x code | c cu q | s | res]; cbn [handle].
  - rewrite create_vendor_path, (store_call_unconfigured _ w Hd). reflexivity.
  - destruct (Offer.valid x); [| reflexivity].
    destruct (admitted code w) eqn:A;
      [| rewrite (create_offer_path_rejected _ _ _ A); reflexivity].
    destruct (PrimFloat.ltb (Offer.original_price x) (Offer.price x)) eqn:P.
    + rewrite (create_offer_path_price _ _ _ A P). reflexivity.
    + rewrite (create_offer_path_insert _ _ _ A P),
        (store_call_unconfigured _ w Hd). reflexivity.
  - rewrite list_offers_path, (store_call_unconfigured _ w Hd). reflexivity.
  - rewrite (get_offer_path_unconfigured _ _ Hd). reflexivity.
  - rewrite (reserve_path_unconfigured _ _ Hd). reflexivity.
Qed.

Lemma reserve_db (res : ReservationIn.t) (w : World) (d : DB) :
  db w = Some d ->
  exists d', db (fst (run (reserve res) w)) = Some d' /\
             (db_step d d' \/ (db_torn d d' /\ faults w <> [])) /\
             (faults w = [] -> faults (fst (run (reserve res) w)) = []).
Proof.
  intro Hd.
  destruct (ObjectId (ReservationIn.offer_id res)) as [o |] eqn:Ho.
  2:{ rewrite (reserve_path_invalid_id _ _ _ Hd Ho). step_same d. auto. }
  destruct (faults_cases (faults w)) as [Hf | [fs Hf]].
  2:{ rewrite (reserve_path_lookup_fault _ _ _ _ _ Hd Ho Hf). step_same d.
      intro E; rewrite E in Hf; discriminate. }
  destruct (coll_find_one o d) as [offer |] eqn:Hx.
  2:{ rewrite (reserve_path_not_found _ _ _ _ Hd Ho Hf Hx). step_same d.
      intro E; rewrite E; reflexivity. }
  destruct (Z.lt_ge_cases (Offer.quantity (offer_doc offer))
                          (ReservationIn.quantity res)) as [Hq | Hq].
  { rewrite (reserve_path_not_enough _ _ _ _ _ Hd Ho Hf Hx Hq). step_same d.
    intro E; rewrite E; reflexivity. }
  destruct (Z.lt_ge_cases (ReservationIn.quantity res) 1) as [H1 | H1].
  { rewrite (reserve_path_invalid_quantity _ _ _ _ _ Hd Ho Hf Hx Hq H1).
    step_same d. intro E; rewrite E; reflexivity. }
  assert (Hr : 1 <= ReservationIn.quantity res
               <= Offer.quantity (offer_doc offer)) by lia.
  destruct (faults_cases (tl (faults w))) as [Hf2 | [fs Hf2]].
  2:{ rewrite (reserve_path_insert_fault _ _ _ _ _ _ Hd Ho Hf Hx Hr Hf2).
      step_same d. intro E; rewrite E in Hf2; discriminate. }
  destruct (faults_cases (tl (tl (faults w)))) as [Hf3 | [fs Hf3]].
  - rewrite (reserve_path_ok _ _ _ _ _ Hd Ho Hf Hx Hr Hf2 Hf3).
    exists (committed res o (clock w) d). cbn. split; [reflexivity | split].
    + left. eapply step_reserved; eassumption.
    + intro E; rewrite E; reflexivity.
  - rewrite (reserve_path_update_fault _ _ _ _ _ _ Hd Ho Hf Hx Hr Hf2 Hf3).
    exists (inserted res d). cbn. split; [reflexivity | split].
    + right. split; [eapply torn_insert; eassumption |].
      intro E; rewrite E in Hf3; discriminate.
    + intro E; rewrite E in Hf3; discriminate.
Qed.

Lemma store_call_step {X : Type} (f : DB -> DB * X) (w : World) (d : DB) :
  db w = Some d ->
  db_step d (fst (f d)) ->
  exists d', db (fst (store_call f w)) = Some d' /\
             db_step d d' /\
             (faults w = [] -> faults (fst (store_call f w)) = []).
Proof.
  intros Hd Hs.
  destruct (store_call_db f w d Hd) as [[H1 [_ [fs Hf]]] | [H1 [_ [Hf _]]]].
  - exists d. split; [exact H1 | split; [apply step_none |]].
    intro E; rewrite E in Hf; discriminate.
  - exists (fst (f d)). split; [exact H1 | split; [exact Hs |]].
    intro E; rewrite Hf, E; reflexivity.
Qed.

Lemma fst_match_result {X : Type} (r : World * (Exn + X))
  (g : X -> Response) :
  fst (match r with
       | (w', inl e) => (w', @inl Exn Response e)
       | (w', inr x) => (w', inr (g x))
       end) = fst r.
Proof. destruct r as [w' [e | x]]; reflexivity. Qed.

Lemma handle_db (req : Request) (w : World) (d : DB) :
  db w = Some d ->
  exists d', db (fst (run (handle req) w)) = Some d' /\
             (db_step d d' \/ (db_torn d d' /\ faults w <> [])) /\
             (faults w = [] -> faults (fst (run (handle req) w)) = []).
Proof.
  intro Hd. destruct req as [v | x code | c cu q | s | res]; cbn [handle].
  - rewrite create_vendor_path, fst_match_result.
    destruct (store_call_step (insert_vendor v) w d Hd (step_vendor d v))
      as [d' [H1 [H2 H3]]]. exists d'; auto.
  - destruct (Offer.valid x) eqn:V; [| step_same d; auto].
    destruct (admitted code w) eqn:A;
      [| rewrite (create_offer_path_rejected _ _ _ A); step_same d; auto].
    destruct (PrimFloat.ltb (Offer.original_price x) (Offer.price x)) eqn:P.
    + rewrite (create_offer_path_price _ _ _ A P). step_same d; auto.
    + rewrite (create_offer_path_insert _ _ _ A P), fst_match_result.
      destruct (store_call_step (insert_offer x) w d Hd (step_offer d x V))
        as [d' [H1 [H2 H3]]]. exists d'; auto.
  - rewrite list_offers_path, fst_match_result.
    destruct (store_call_step
                (fun d => (d, coll_find (list_filter c cu q) 100 d)) w d Hd
                (step_none d)) as [d' [H1 [H2 H3]]]. exists d'; auto.
  - destruct (ObjectId s) as [o |] eqn:Ho.
    + rewrite (get_offer_path_lookup _ _ _ _ Hd Ho).
      destruct (store_call_step (fun d => (d, coll_find_one o d)) w d Hd
                  (step_none d)) as [d' [H1 [H2 H3]]].
      destruct (store_call _ w) as [w' [e | [doc |]]]; exists d'; auto.
    + rewrite (get_offer_path_invalid_id _ _ _ Hd Ho). step_same d; auto.
  - apply reserve_db, Hd.
Qed.

(** ** Invariants of the database steps *)

Lemma patch_oid (n t : Z) (x : OfferDoc) : offer_oid (patch n t x) = offer_oid x.
Proof. reflexivity. Qed.

Lemma patch_quantity (n t : Z) (x : OfferDoc) :
  Offer.quantity (offer_doc (patch n t x)) = Offer.quantity (offer_doc x) + n.
Proof. reflexivity. Qed.

Lemma In_update_first (o : oid) (f : OfferDoc -> OfferDoc) (l : list OfferDoc)
  (x' : OfferDoc) :
  In x' (update_first o f l) ->
  In x' l \/ exists x0, find (has_oid o) l = Some x0 /\ x' = f x0.
Proof.
  induction l as [| x l IH]; cbn [update_first find]; [contradiction |].
  destruct (has_oid o x) eqn:E; cbn [In].
  - intros [<- | H]; [right; eauto | left; auto].
  - intros [<- | H]; [left; auto |].
    destruct (IH H) as [H' | H']; auto.
Qed.

Lemma find_update_first_other (o o1 : oid) (f : OfferDoc -> OfferDoc)
  (l : list OfferDoc) :
  o <> o1 -> (forall x, offer_oid (f x) = offer_oid x) ->
  find (has_oid o) (update_first o1 f l) = find (has_oid o) l.
Proof.
  intros Hne Hf. induction l as [| x l IH]; cbn [update_first find];
    [reflexivity |].
  destruct (has_oid o1 x) eqn:E1; cbn [find].
  - apply has_oid_true in E1.
    assert (has_oid o (f x) = false) as ->.
    { unfold has_oid. apply N.eqb_neq. rewrite Hf. congruence. }
    assert (has_oid o x = false) as ->.
    { unfold has_oid. apply N.eqb_neq. congruence. }
    reflexivity.
  - destruct (has_oid o x); [reflexivity | exact IH].
Qed.

Lemma map_oid_update_first (o : oid) (f : OfferDoc -> OfferDoc)
  (l : list OfferDoc) :
  (forall x, offer_oid (f x) = offer_oid x) ->
  map offer_oid (update_first o f l) = map offer_oid l.
Proof.
  intro Hf. induction l as [| x l IH]; cbn [update_first map]; [reflexivity |].
  destruct (has_oid o x); cbn [map]; [rewrite Hf | rewrite IH]; reflexivity.
Qed.

Lemma find_app_none {A : Type} (p : A -> bool) (l1 l2 : list A) :
  find p l1 = None -> find p (l1 ++ l2) = find p l2.
Proof.
  induction l1 as [| y l1 IH]; cbn [find app]; [reflexivity |].
  destruct (p y); [discriminate | exact IH].
Qed.

Lemma units_app (l1 l2 : list ReservationDoc) :
  units (l1 ++ l2) = units l1 + units l2.
Proof.
  induction l1 as [| r l1 IH]; cbn [units app]; [reflexivity | rewrite IH; lia].
Qed.

Lemma reserved_units_snoc (o : oid) (l : list ReservationDoc)
  (r : ReservationDoc) :
  reserved_units o (l ++ [r]) =
  reserved_units o l +
  (if counts_for o r then Reservation.quantity (reservation_doc r) else 0).
Proof.
  unfold reserved_units. rewrite filter_app, units_app. cbn [filter].
  destruct (counts_for o r); cbn [units]; lia.
Qed.

Lemma reserved_units_unreferenced (o : oid) (l : list ReservationDoc) :
  (forall r, In r l -> refers_to o r = false) -> reserved_units o l = 0.
Proof.
  unfold reserved_units. induction l as [| r l IH]; intro H; cbn [filter units];
    [reflexivity |].
  unfold counts_for at 1. rewrite (H r (or_introl eq_refl)). cbn [andb].
  apply IH. intros r' Hr'. apply H. right; exact Hr'.
Qed.

Lemma counts_for_reservation (res : ReservationIn.t) (o o' n : oid) :
  ObjectId (ReservationIn.offer_id res) = Some o ->
  counts_for o' (mkReservationDoc n (reservation_of res)) = N.eqb o o'.
Proof.
  intro Ho. unfold counts_for, refers_to, cancelled. cbn. rewrite Ho.
  apply andb_true_r.
Qed.

(** Quantities stay non-negative, torn or not. *)
Lemma db_step_nonneg (d d' : DB) :
  db_step d d' \/ db_torn d d' ->
  nonneg (coll_offer d) -> nonneg (coll_offer d').
Proof.
  intros [H | H] Hn;
    [destruct H as [| v | x V | res o offer now Ho Hx Hq]
    | destruct H as [res o offer Ho Hx Hq]]; cbn; try exact Hn.
  - intros y Hy. apply in_app_or in Hy. destruct Hy as [Hy | [<- | []]].
    + apply Hn, Hy.
    + cbn. unfold Offer.valid in V. apply andb_true_iff in V.
      destruct V as [_ V]. apply Z.leb_le, V.
  - intros y Hy. apply In_update_first in Hy.
    destruct Hy as [Hy | [x0 [Hx0 ->]]]; [apply Hn, Hy |].
    unfold coll_find_one in Hx. cbn in Hx0. rewrite Hx in Hx0.
    injection Hx0 as <-. rewrite patch_quantity. lia.
Qed.

(** The store's guarantees about ids survive every step. *)
Lemma db_step_wf (d d' : DB) :
  db_step d d' \/ db_torn d d' -> wf d -> wf d'.
Proof.
  intros [H | H] [Hnd Hof Hrf];
    [destruct H as [| v | x V | res o offer now Ho Hx Hq]
    | destruct H as [res o offer Ho Hx Hq]].
  - constructor; assumption.
  - constructor; cbn; [exact Hnd | |].
    + intros y Hy. specialize (Hof y Hy). lia.
    + intros r o Hr Hro. specialize (Hrf r o Hr Hro). lia.
  - constructor; cbn.
    + rewrite map_app. cbn [map].
      assert (HA : Add (next_oid d) (map offer_oid (coll_offer d))
                       (map offer_oid (coll_offer d) ++ [next_oid d])).
      { pose proof (Add_app (next_oid d) (map offer_oid (coll_offer d)) [])
          as HA. rewrite app_nil_r in HA. exact HA. }
      apply (NoDup_Add HA). split; [exact Hnd |].
      intro Hin. apply in_map_iff in Hin. destruct Hin as [y [Hy1 Hy2]].
      specialize (Hof y Hy2). lia.
    + intros y Hy. apply in_app_or in Hy. destruct Hy as [Hy | [<- | []]].
      * specialize (Hof y Hy). lia.
      * cbn. lia.
    + intros r o Hr Hro. specialize (Hrf r o Hr Hro). lia.
  - apply find_one_oid in Hx. destruct Hx as [Hxo Hxi].
    constructor; cbn.
    + rewrite map_oid_update_first by apply patch_oid. exact Hnd.
    + intros y Hy. apply In_update_first in Hy.
      destruct Hy as [Hy | [x0 [Hx0 ->]]].
      * specialize (Hof y Hy). lia.
      * apply find_some in Hx0. destruct Hx0 as [Hx0 _].
        rewrite patch_oid. specialize (Hof x0 Hx0). lia.
    + intros r o' Hr Hro. apply in_app_or in Hr.
      destruct Hr as [Hr | [<- | []]].
      * specialize (Hrf r o' Hr Hro). lia.
      * cbn in Hro. rewrite Ho in Hro. injection Hro as <-.
        specialize (Hof offer Hxi). lia.
  - apply find_one_oid in Hx. destruct Hx as [Hxo Hxi].
    constructor; cbn.
    + exact Hnd.
    + intros y Hy. specialize (Hof y Hy). lia.
    + intros r o' Hr Hro. apply in_app_or in Hr.
      destruct Hr as [Hr | [<- | []]].
      * specialize (Hrf r o' Hr Hro). lia.
      * cbn in Hro. rewrite Ho in Hro. injection Hro as <-.
        specialize (Hof offer Hxi). lia.
Qed.

(** A completed step conserves, for every offer already there, the units
    reserved plus the units left. *)
Lemma db_step_conserves (d d' : DB) (o : oid) (x : OfferDoc) :
  db_step d d' ->
  coll_find_one o d = Some x ->
  exists x',
    coll_find_one o d' = Some x' /\
    reserved_units o (coll_reservation d') + Offer.quantity (offer_doc x') =
    reserved_units o (coll_reservation d) + Offer.quantity (offer_doc x) /\
    (0 <= Offer.quantity (offer_doc x) -> 0 <= Offer.quantity (offer_doc x')).
Proof.
  intros H Hx. destruct H as [| v | y V | res o1 offer now Ho Hx1 Hq].
  - exists x. auto.
  - exists x. cbn. auto.
  - exists x. unfold coll_find_one in *. cbn.
    rewrite (find_app_l _ _ _ _ Hx). auto.
  - unfold committed, inserted, coll_find_one in *.
    cbn [coll_reservation coll_offer coll_update_one insert_reservation fst].
    rewrite reserved_units_snoc, (counts_for_reservation _ _ _ _ Ho).
    cbn [reservation_doc reservation_of Reservation.quantity].
    destruct (N.eqb_spec o1 o) as [-> | Hne].
    + rewrite find_update_first by apply patch_oid. rewrite Hx. cbn.
      rewrite Hx in Hx1. injection Hx1 as <-.
      exists (patch (- ReservationIn.quantity res) now x).
      rewrite patch_quantity. repeat split; lia.
    + rewrite find_update_first_other by (try apply patch_oid; congruence).
      exists x. repeat split; [exact Hx | lia | auto].
Qed.

(** An offer that appears in a step is a new document: nothing refers to it
    yet, and its quantity is the validated one of the request. *)
Lemma db_step_creates (d d' : DB) (o : oid) (x0 : OfferDoc) :
  wf d -> db_step d d' ->
  coll_find_one o d = None -> coll_find_one o d' = Some x0 ->
  reserved_units o (coll_reservation d') = 0 /\
  0 <= Offer.quantity (offer_doc x0).
Proof.
  intros [Hnd Hof Hrf] H Hx Hx'.
  destruct H as [| v | y V | res o1 offer now Ho Hx1 Hq].
  - congruence.
  - unfold coll_find_one in *. cbn in Hx'. congruence.
  - unfold coll_find_one in *. cbn in Hx'.
    rewrite (find_app_none _ _ _ Hx) in Hx'. cbn in Hx'.
    destruct (has_oid o _) eqn:E; [| discriminate]. injection Hx' as <-.
    apply has_oid_true in E. cbn in E. subst o. cbn. split.
    + apply reserved_units_unreferenced. intros r Hr. unfold refers_to.
      destruct (ObjectId _) as [o' |] eqn:Ho'; [| reflexivity].
      specialize (Hrf r o' Hr Ho'). apply N.eqb_neq. lia.
    + unfold Offer.valid in V. apply andb_true_iff in V. apply Z.leb_le, V.
  - exfalso. unfold committed, inserted, coll_find_one in *. cbn in Hx'.
    destruct (N.eq_dec o o1) as [-> | Hne].
    + rewrite find_update_first in Hx' by apply patch_oid.
      rewrite Hx in Hx'. discriminate.
    + rewrite find_update_first_other in Hx' by (try apply patch_oid; congruence).
      congruence.
Qed.

(** ** Requests served one after the other *)

Lemma serve_app (reqs1 reqs2 : list Request) (w : World) :
  serve (reqs1 ++ reqs2) w = serve reqs2 (serve reqs1 w).
Proof.
  revert w; induction reqs1 as [| r reqs1 IH]; intro w; cbn [serve app];
    [reflexivity | apply IH].
Qed.

Lemma serve_unconfigured (reqs : list Request) (w : World) :
  db w = None -> serve reqs w = w.
Proof.
  intro Hd. induction reqs as [| r reqs IH]; cbn [serve]; [reflexivity |].
  rewrite (handle_unconfigured r w Hd). exact IH.
Qed.

Lemma serve_wf (reqs : list Request) (w : World) :
  wf_world w -> wf_world (serve reqs w).
Proof.
  revert w; induction reqs as [| r reqs IH]; intros w Hw; cbn [serve];
    [exact Hw |].
  apply IH. destruct (db w) as [d |] eqn:Hd.
  - destruct (handle_db r w d Hd) as [d' [H1 [H2 _]]].
    unfold wf_world in *. rewrite H1. rewrite Hd in Hw.
    apply (db_step_wf d d'); [tauto | exact Hw].
  - rewrite (handle_unconfigured r w Hd). exact Hw.
Qed.

Lemma serve_reliable (reqs : list Request) (w : World) :
  faults w = [] -> faults (serve reqs w) = [].
Proof.
  revert w; induction reqs as [| r reqs IH]; intros w Hf; cbn [serve];
    [exact Hf |].
  apply IH. destruct (db w) as [d |] eqn:Hd.
  - destruct (handle_db r w d Hd) as [d' [_ [_ H3]]]. auto.
  - rewrite (handle_unconfigured r w Hd). exact Hf.
Qed.

Lemma serve_conserves (reqs : list Request) (w : World) (o : oid)
  (x : OfferDoc) :
  faults w = [] ->
  lookup o w = Some x ->
  exists x',
    lookup o (serve reqs w) = Some x' /\
    reserved_units o (reservations (serve reqs w))
    + Offer.quantity (offer_doc x') =
    reserved_units o (reservations w) + Offer.quantity (offer_doc x) /\
    (0 <= Offer.quantity (offer_doc x) -> 0 <= Offer.quantity (offer_doc x')).
Proof.
  revert w x; induction reqs as [| r reqs IH]; intros w x Hf Hx; cbn [serve].
  - exists x. auto.
  - unfold lookup in Hx. destruct (db w) as [d |] eqn:Hd; [| discriminate].
    destruct (handle_db r w d Hd) as [d' [H1 [H2 H3]]].
    destruct H2 as [H2 | [_ H2]]; [| contradiction].
    destruct (db_step_conserves d d' o x H2 Hx) as [x1 [A [B C]]].
    destruct (IH (fst (run (handle r) w)) x1 (H3 Hf)) as [x' [A' [B' C']]].
    { unfold lookup. rewrite H1. exact A. }
    exists x'. split; [exact A' |].
    unfold reservations in B' at 2. rewrite H1 in B'.
    unfold reservations at 2. rewrite Hd. split; [lia | auto].
Qed.

(** ** Lookups and listings *)

Lemma list_filter_base (city cuisine q : option string) :
  exists rest,
    list_filter city cuisine q =
    EField "active" (CEq (VBool true))
    :: EField "quantity" (CGt (VInt 0)) :: rest.
Proof.
  unfold list_filter.
  destruct (truthy city), (truthy cuisine), q as [pat |];
    try destruct (truthy (Some pat)); cbn [app]; eauto.
Qed.

Lemma matches_base (filt : Filter) (doc : OfferDoc) :
  matches (EField "active" (CEq (VBool true))
           :: EField "quantity" (CGt (VInt 0)) :: filt) doc = true ->
  Offer.active (offer_doc doc) = true /\ 0 < Offer.quantity (offer_doc doc).
Proof.
  unfold matches. cbn [forallb]. intro H.
  apply andb_true_iff in H. destruct H as [Ha H].
  apply andb_true_iff in H. destruct H as [Hq _].
  cbn in Ha, Hq. split.
  - destruct (Offer.active (offer_doc doc)); [reflexivity | discriminate].
  - apply Z.ltb_lt, Hq.
Qed.

Lemma In_firstn {A : Type} (n : nat) (l : list A) (x : A) :
  In x (firstn n l) -> In x l.
Proof.
  revert l; induction n as [| n IH]; intros [| y l]; cbn [firstn In];
    try contradiction.
  intros [H | H]; [left; exact H | right; apply IH, H].
Qed.

Lemma coll_find_sound (city cuisine q : option string) (d : DB)
  (doc : OfferDoc) :
  In doc (coll_find (list_filter city cuisine q) 100 d) ->
  In doc (coll_offer d) /\
  Offer.active (offer_doc doc) = true /\ 0 < Offer.quantity (offer_doc doc).
Proof.
  unfold coll_find. intro H. apply In_firstn, filter_In in H.
  destruct H as [Hin Hm]. split; [exact Hin |].
  destruct (list_filter_base city cuisine q) as [rest E]. rewrite E in Hm.
  apply (matches_base rest doc Hm).
Qed.

(** [C7] Whatever the city, cuisine and query, when the store answers, the
    listing is built from stored offers that are active and have a positive
    quantity; an offer whose quantity is 0 is never listed, and the listing
    leaves the database, that offer's record included, as it was. *)
Theorem list_offers_only_available (city cuisine q : option string)
  (w : World) (d : DB) :
  db w = Some d ->
  hd false (faults w) = false ->
  exists result,
    run (list_offers city cuisine q) w = (after_read w d, inr (ROffers result)) /\
    db (after_read w d) = Some d /\
    (forall out, In out result ->
       0 < OfferOut.quantity out /\
       exists doc, In doc (coll_offer d) /\ out = offer_out doc /\
                   Offer.active (offer_doc doc) = true /\
                   0 < Offer.quantity (offer_doc doc)) /\
    (forall doc, In doc (coll_offer d) ->
       Offer.quantity (offer_doc doc) = 0 -> ~ In (offer_out doc) result).
Proof.
  intros Hd Hf.
  exists (map offer_out (coll_find (list_filter city cuisine q) 100 d)).
  assert (Hall : forall out,
             In out (map offer_out (coll_find (list_filter city cuisine q) 100 d)) ->
             0 < OfferOut.quantity out /\
             exists doc, In doc (coll_offer d) /\ out = offer_out doc /\
                         Offer.active (offer_doc doc) = true /\
                         0 < Offer.quantity (offer_doc doc)).
  { intros out Hout. apply in_map_iff in Hout. destruct Hout as [doc [<- Hin]].
    apply coll_find_sound in Hin. destruct Hin as [Hin [Ha Hq]].
    split; [exact Hq | exists doc; auto]. }
  split; [| split; [reflexivity | split; [exact Hall |]]].
  - rewrite list_offers_path, (store_call_ok _ w d Hd Hf). reflexivity.
  - intros doc _ Hz Hin. apply Hall in Hin. destruct Hin as [Hpos _].
    cbn in Hpos. lia.
Qed.

(** [C8, amended] With the database configured, the store answering and a
    well-formed id, [get_offer] raises 404 exactly when no document has that
    id; a document that has it is returned whether it is active or not. *)
Theorem get_offer_by_id_only (offer_id : string) (w : World) (d : DB) (o : oid) :
  db w = Some d ->
  hd false (faults w) = false ->
  ObjectId offer_id = Some o ->
  run (get_offer offer_id) w =
  (after_read w d,
   match coll_find_one o d with
   | None => inl not_found
   | Some doc => inr (ROffer (oid_str (offer_oid doc)) (offer_doc doc)
                             (offer_updated_at doc))
   end).
Proof.
  intros Hd Hf Ho.
  rewrite (get_offer_path_lookup _ _ _ _ Hd Ho), (store_call_ok _ w d Hd Hf).
  cbn [fst snd]. destruct (coll_find_one o d); reflexivity.
Qed.

(** [C6] Creating an offer whose price is above its original price never
    touches the store: the world is as it was.  When the request passes the
    admin-code gate, it fails with 400 "Price must be <= original price". *)
Theorem create_offer_price_above_original (offer : Offer.t)
  (admin_code : option string) (w : World) :
  PrimFloat.ltb (Offer.original_price offer) (Offer.price offer) = true ->
  fst (run (create_offer offer admin_code) w) = w /\
  (admitted admin_code w = true ->
   snd (run (create_offer offer admin_code) w)
   = inl (HTTPException 400 "Price must be <= original price")).
Proof.
  intro P. destruct (admitted admin_code w) eqn:A.
  - rewrite (create_offer_path_price _ _ _ A P). split; reflexivity.
  - rewrite (create_offer_path_rejected _ _ _ A). split; [reflexivity |].
    discriminate.
Qed.

(** ** Reservations *)

(** [C3] A request for more units than the offer has fails with 400 "Not
    enough quantity", and the database is exactly what it was: no record is
    inserted and the offer's quantity is not touched. *)
Theorem reserve_insufficient_quantity (res : ReservationIn.t) (w : World)
  (d : DB) (o : oid) (offer : OfferDoc) :
  db w = Some d ->
  hd false (faults w) = false ->
  ObjectId (ReservationIn.offer_id res) = Some o ->
  coll_find_one o d = Some offer ->
  Offer.quantity (offer_doc offer) < ReservationIn.quantity res ->
  snd (run (reserve res) w) = inl (HTTPException 400 "Not enough quantity") /\
  db (fst (run (reserve res) w)) = Some d /\
  lookup o (fst (run (reserve res) w)) = Some offer /\
  reservations (fst (run (reserve res) w)) = coll_reservation d.
Proof.
  intros Hd Hf Ho Hx Hq.
  rewrite (reserve_path_not_enough res w d o offer Hd Ho Hf Hx Hq).
  unfold lookup, reservations, after_read. cbn. auto.
Qed.

(** [C9, amended] The reservation route hands its body to [reserve]
    unchecked.  For a requested quantity of 0 or less against an existing
    offer the database is left as it was, and the request ends in one of two
    errors.  If the offer has at least the quantity asked for, as every
    offer whose quantity is not negative has, the comparison "available <
    requested" is false, the [Reservation] model then refuses the quantity,
    and the request ends in that validation error, not in 400.  If the
    offer has less, its quantity being negative, the request ends in 400
    "Not enough quantity". *)
Theorem reserve_nonpositive_quantity (res : ReservationIn.t) (w : World)
  (d : DB) (o : oid) (offer : OfferDoc) :
  db w = Some d ->
  hd false (faults w) = false ->
  ObjectId (ReservationIn.offer_id res) = Some o ->
  coll_find_one o d = Some offer ->
  ReservationIn.quantity res <= 0 ->
  handle (POST_reservations res) = reserve res /\
  db (fst (run (reserve res) w)) = Some d /\
  lookup o (fst (run (reserve res) w)) = Some offer /\
  (ReservationIn.quantity res <= Offer.quantity (offer_doc offer) ->
   (Offer.quantity (offer_doc offer) <? ReservationIn.quantity res) = false /\
   snd (run (reserve res) w) = inl (ValidationError "Reservation") /\
   snd (run (reserve res) w) <> inl not_enough) /\
  (0 <= Offer.quantity (offer_doc offer) ->
   snd (run (reserve res) w) = inl (ValidationError "Reservation")) /\
  (Offer.quantity (offer_doc offer) < ReservationIn.quantity res ->
   snd (run (reserve res) w) = inl (HTTPException 400 "Not enough quantity")).
Proof.
  intros Hd Hf Ho Hx Hq.
  assert (H1 : ReservationIn.quantity res < 1) by lia.
  assert (V : ReservationIn.quantity res <= Offer.quantity (offer_doc offer) ->
              run (reserve res) w
              = (after_read w d, inl (ValidationError "Reservation"))).
  { intro Hle.
    apply (reserve_path_invalid_quantity res w d o offer Hd Ho Hf Hx Hle H1). }
  split; [reflexivity |].
  destruct (Z.lt_ge_cases (Offer.quantity (offer_doc offer))
                          (ReservationIn.quantity res)) as [Hlt | Hge].
  - rewrite (reserve_path_not_enough res w d o offer Hd Ho Hf Hx Hlt).
    unfold lookup, after_read. cbn.
    repeat split; try assumption; try reflexivity; intros; lia.
  - rewrite (V Hge). unfold lookup, after_read. cbn.
    repeat split; try assumption; try reflexivity; try discriminate;
      intros; lia.
Qed.

Lemma get_offer_not_found_inv (offer_id : string) (w w' : World) (d : DB) :
  db w = Some d ->
  run (get_offer offer_id) w = (w', inl not_found) ->
  exists o, ObjectId offer_id = Some o /\ coll_find_one o d = None.
Proof.
  intros Hd H. destruct (ObjectId offer_id) as [o |] eqn:Ho.
  - exists o. split; [reflexivity |].
    rewrite (get_offer_path_lookup _ _ _ _ Hd Ho) in H.
    destruct (faults_cases (faults w)) as [Hf | [fs Hf]].
    + rewrite (store_call_ok _ w d Hd Hf) in H. cbn [fst snd] in H.
      destruct (coll_find_one o d); [discriminate | reflexivity].
    + rewrite (store_call_fault _ w d fs Hd Hf) in H. discriminate.
  - rewrite (get_offer_path_invalid_id _ _ _ Hd Ho) in H. discriminate.
Qed.

Lemma reserve_not_found_inv (res : ReservationIn.t) (w w' : World) (d : DB) :
  db w = Some d ->
  run (reserve res) w = (w', inl not_found) ->
  exists o, ObjectId (ReservationIn.offer_id res) = Some o /\
            coll_find_one o d = None.
Proof.
  intros Hd H.
  destruct (ObjectId (ReservationIn.offer_id res)) as [o |] eqn:Ho.
  2:{ rewrite (reserve_path_invalid_id _ _ _ Hd Ho) in H. discriminate. }
  exists o. split; [reflexivity |].
  destruct (faults_cases (faults w)) as [Hf | [fs Hf]].
  2:{ rewrite (reserve_path_lookup_fault _ _ _ _ _ Hd Ho Hf) in H.
      discriminate. }
  destruct (coll_find_one o d) as [offer |] eqn:Hx; [exfalso | reflexivity].
  destruct (Z.lt_ge_cases (Offer.quantity (offer_doc offer))
                          (ReservationIn.quantity res)) as [Hq | Hq].
  { rewrite (reserve_path_not_enough _ _ _ _ _ Hd Ho Hf Hx Hq) in H.
    discriminate. }
  destruct (Z.lt_ge_cases (ReservationIn.quantity res) 1) as [H1 | H1].
  { rewrite (reserve_path_invalid_quantity _ _ _ _ _ Hd Ho Hf Hx Hq H1) in H.
    discriminate. }
  assert (Hr : 1 <= ReservationIn.quantity res
               <= Offer.quantity (offer_doc offer)) by lia.
  destruct (faults_cases (tl (faults w))) as [Hf2 | [fs Hf2]].
  2:{ rewrite (reserve_path_insert_fault _ _ _ _ _ _ Hd Ho Hf Hx Hr Hf2) in H.
      discriminate. }
  destruct (faults_cases (tl (tl (faults w)))) as [Hf3 | [fs Hf3]].
  - rewrite (reserve_path_ok _ _ _ _ _ Hd Ho Hf Hx Hr Hf2 Hf3) in H.
    discriminate.
  - rewrite (reserve_path_update_fault _ _ _ _ _ _ Hd Ho Hf Hx Hr Hf2 Hf3) in H.
    discriminate.
Qed.

Lemma ObjectId_rejects (s : string) :
  String.length s <> 24%nat \/ bytes_fromhex s = None -> ObjectId s = None.
Proof.
  unfold ObjectId. intros [L | B].
  - apply Nat.eqb_neq in L. rewrite L. reflexivity.
  - rewrite B. destruct (String.length s =? 24)%nat; reflexivity.
Qed.

(** A character that is neither a hexadecimal digit nor white space makes
    [bytes.fromhex] refuse the string. *)
Lemma bytes_fromhex_bad_char (n : nat) (s : string) (c : ascii) :
  (String.length s <= n)%nat ->
  In c (list_ascii_of_string s) ->
  hex_digit c = None -> is_space c = false ->
  bytes_fromhex s = None.
Proof.
  revert s; induction n as [| n IH]; intros s L Hin Hh Hs.
  - destruct s; [contradiction | cbn in L; lia].
  - destruct s as [| a r]; [contradiction |].
    cbn [String.length] in L. cbn [bytes_fromhex].
    destruct (is_space a) eqn:Sa.
    + apply (IH r); try assumption; [lia |].
      destruct Hin as [<- | Hin]; [congruence | exact Hin].
    + destruct (hex_digit a) as [top |] eqn:Ha; [| reflexivity].
      destruct r as [| a' r']; [reflexivity |].
      destruct (hex_digit a') as [bot |] eqn:Ha'; [| reflexivity].
      rewrite (IH r'); [reflexivity | cbn in L; lia | | assumption
                        | assumption].
      destruct Hin as [<- | [<- | Hin]]; [congruence | congruence | exact Hin].
Qed.

(** [C10, amended] With the database configured, an id string that bson's
    [ObjectId] rejects, that is one whose length is not 24, or one of 24
    characters that [bytes.fromhex] refuses, makes both [get_offer] and
    [reserve] end in the uncaught [InvalidId] exception, before the store is
    asked anything.  When either of them answers 404 "Offer not found", the
    string was accepted by [ObjectId] and no document has the id it
    denotes. *)
Theorem malformed_id_raises_InvalidId (offer_id : string) (w : World) (d : DB) :
  db w = Some d ->
  (String.length offer_id <> 24%nat \/ bytes_fromhex offer_id = None ->
   run (get_offer offer_id) w = (w, inl (InvalidId offer_id)) /\
   forall customer_name customer_phone quantity,
     run (reserve (ReservationIn.mk offer_id customer_name customer_phone
                                    quantity)) w
     = (w, inl (InvalidId offer_id))) /\
  (forall w',
     run (get_offer offer_id) w = (w', inl not_found) ->
     String.length offer_id = 24%nat /\
     exists b, bytes_fromhex offer_id = Some b /\
               coll_find_one (oid_of_bytes b) d = None) /\
  (forall customer_name customer_phone quantity w',
     run (reserve (ReservationIn.mk offer_id customer_name customer_phone
                                    quantity)) w
     = (w', inl not_found) ->
     String.length offer_id = 24%nat /\
     exists b, bytes_fromhex offer_id = Some b /\
               coll_find_one (oid_of_bytes b) d = None).
Proof.
  intro Hd.
  assert (Parsed : forall o, ObjectId offer_id = Some o ->
            coll_find_one o d = None ->
            String.length offer_id = 24%nat /\
            exists b, bytes_fromhex offer_id = Some b /\
                      coll_find_one (oid_of_bytes b) d = None).
  { intros o Ho Hx. split; [apply (ObjectId_length _ _ Ho) |].
    unfold ObjectId in Ho.
    destruct (String.length offer_id =? 24)%nat; [| discriminate].
    destruct (bytes_fromhex offer_id) as [b |]; [| discriminate].
    injection Ho as <-. exists b. auto. }
  split; [| split].
  - intro Hbad. apply ObjectId_rejects in Hbad. split.
    + apply (get_offer_path_invalid_id _ _ _ Hd Hbad).
    + intros n ph q.
      apply (reserve_path_invalid_id (ReservationIn.mk offer_id n ph q) w d
               Hd Hbad).
  - intros w' H.
    destruct (get_offer_not_found_inv _ _ _ _ Hd H) as [o [Ho Hx]].
    apply (Parsed o Ho Hx).
  - intros n ph q w' H.
    destruct (reserve_not_found_inv (ReservationIn.mk offer_id n ph q)
                _ _ _ Hd H) as [o [Ho Hx]].
    apply (Parsed o Ho Hx).
Qed.

(** [C2, amended] Once lookup and validation have succeeded, a store failure
    at the insert of the reservation leaves the database as it was; a store
    failure at the update of the offer, the insert having succeeded, leaves
    the new reservation record in place and the offer as it was.  (A
    decrement without its record does not occur.) *)
Theorem reserve_commit_store_failure (res : ReservationIn.t) (w : World)
  (d : DB) (o : oid) (offer : OfferDoc) (fs : list bool) :
  db w = Some d ->
  hd false (faults w) = false ->
  ObjectId (ReservationIn.offer_id res) = Some o ->
  coll_find_one o d = Some offer ->
  1 <= ReservationIn.quantity res <= Offer.quantity (offer_doc offer) ->
  (tl (faults w) = true :: fs ->
   run (reserve res) w = (with_db d fs w, inl StoreUnavailableError)) /\
  (hd false (tl (faults w)) = false ->
   tl (tl (faults w)) = true :: fs ->
   run (reserve res) w =
   (with_db (inserted res d) fs w, inl StoreUnavailableError) /\
   coll_offer (inserted res d) = coll_offer d /\
   coll_reservation (inserted res d) =
   (coll_reservation d ++ [mkReservationDoc (next_oid d) (reservation_of res)])%list).
Proof.
  intros Hd Hf Ho Hx Hr. split.
  - intro Hf2. apply (reserve_path_insert_fault _ _ _ _ _ _ Hd Ho Hf Hx Hr Hf2).
  - intros Hf2 Hf3. split; [| split; reflexivity].
    apply (reserve_path_update_fault _ _ _ _ _ _ Hd Ho Hf Hx Hr Hf2 Hf3).
Qed.

Lemma find_committed (res : ReservationIn.t) (o : oid) (now : Z) (d : DB)
  (x : OfferDoc) :
  coll_find_one o d = Some x ->
  coll_find_one o (committed res o now d)
  = Some (patch (- ReservationIn.quantity res) now x).
Proof.
  unfold committed, inserted, coll_find_one. cbn. intro H.
  rewrite find_update_first by apply patch_oid. rewrite H. reflexivity.
Qed.

(** [C5] From an offer of 5 units: reserving 3 succeeds, leaves 2 and a new
    record with status "reserved"; reserving 3 again fails with 400 "Not
    enough quantity" and changes nothing; reserving 2 then succeeds and
    leaves 0. *)
Theorem scenario_reserve_3_3_2 (w : World) (d : DB) (o : oid)
  (offer : OfferDoc) (offer_id customer_name customer_phone : string) :
  db w = Some d ->
  faults w = [] ->
  ObjectId offer_id = Some o ->
  coll_find_one o d = Some offer ->
  Offer.quantity (offer_doc offer) = 5 ->
  let request q := ReservationIn.mk offer_id customer_name customer_phone q in
  let first := run (reserve (request 3)) w in
  let second := run (reserve (request 3)) (fst first) in
  let third := run (reserve (request 2)) (fst second) in
  snd first = inr (RReserved (oid_str (next_oid d)) "Reserved") /\
  quantity_of o (fst first) = Some 2 /\
  reservations (fst first) =
    (coll_reservation d ++
     [mkReservationDoc (next_oid d)
        (Reservation.mk offer_id customer_name customer_phone 3 "reserved")])%list /\
  snd second = inl (HTTPException 400 "Not enough quantity") /\
  quantity_of o (fst second) = Some 2 /\
  reservations (fst second) = reservations (fst first) /\
  (exists id, snd third = inr (RReserved id "Reserved")) /\
  quantity_of o (fst third) = Some 0.
Proof.
  intros Hd Hf Ho Hx H5 request first second third.
  assert (E1 : first =
               (with_db (committed (request 3) o (clock w) d) [] w,
                inr (RReserved (oid_str (next_oid d)) "Reserved"))).
  { unfold first.
    rewrite (reserve_path_ok (request 3) w d o offer Hd Ho);
      rewrite ?Hf; cbn; try reflexivity; try assumption; lia. }
  pose proof (find_committed (request 3) o (clock w) d offer Hx) as Hx1.
  set (d1 := committed (request 3) o (clock w) d) in *.
  set (x1 := patch (- ReservationIn.quantity (request 3)) (clock w) offer) in *.
  assert (Q1 : Offer.quantity (offer_doc x1) = 2).
  { unfold x1. rewrite patch_quantity. cbn. lia. }
  assert (E2 : second = (with_db d1 [] w, inl not_enough)).
  { unfold second. rewrite E1. cbn [fst].
    rewrite (reserve_path_not_enough (request 3) (with_db d1 [] w) d1 o x1);
      cbn; try reflexivity; try assumption. lia. }
  assert (E3 : third =
               (with_db (committed (request 2) o (clock w) d1) [] w,
                inr (RReserved (oid_str (next_oid d1)) "Reserved"))).
  { unfold third. rewrite E2. cbn [fst].
    rewrite (reserve_path_ok (request 2) (with_db d1 [] w) d1 o x1);
      cbn; try reflexivity; try assumption. lia. }
  rewrite E3, E2, E1. unfold quantity_of, lookup, reservations.
  cbn [fst snd db with_db].
  rewrite (find_committed (request 2) o (clock w) d1 x1 Hx1), Hx1.
  cbn [option_map]. rewrite patch_quantity, Q1.
  repeat split; try reflexivity. eexists; reflexivity.
Qed.

(** [C4, amended] Requests served one after the other by a store that
    answers every call.  From the request that creates an offer onwards, and
    whatever requests follow, the units of the non-cancelled reservations
    referring to the offer plus the units the offer has left equal the
    quantity it was created with, and what is left is never negative. *)
Theorem units_conserved (w : World) (reqs1 : list Request) (req : Request)
  (reqs2 : list Request) (o : oid) (x0 : OfferDoc) :
  faults w = [] ->
  wf_world w ->
  lookup o (serve reqs1 w) = None ->
  lookup o (serve (reqs1 ++ [req]) w) = Some x0 ->
  exists x,
    lookup o (serve (reqs1 ++ req :: reqs2) w) = Some x /\
    reserved_units o (reservations (serve (reqs1 ++ req :: reqs2) w))
    + Offer.quantity (offer_doc x) = Offer.quantity (offer_doc x0) /\
    0 <= Offer.quantity (offer_doc x).
Proof.
  intros Hf Hw Hnone Hsome.
  rewrite serve_app in Hsome. rewrite serve_app. cbn [serve] in *.
  pose proof (serve_reliable reqs1 w Hf) as Hf1.
  pose proof (serve_wf reqs1 w Hw) as Hw1.
  set (w1 := serve reqs1 w) in *.
  destruct (db w1) as [d1 |] eqn:Hd1.
  2:{ rewrite (handle_unconfigured req w1 Hd1) in Hsome. congruence. }
  destruct (handle_db req w1 d1 Hd1) as [d2 [Hd2 [Hstep Hf2]]].
  destruct Hstep as [Hstep | [_ Hbad]]; [| contradiction].
  unfold wf_world in Hw1. rewrite Hd1 in Hw1.
  unfold lookup in Hnone, Hsome. rewrite Hd1 in Hnone. rewrite Hd2 in Hsome.
  destruct (db_step_creates d1 d2 o x0 Hw1 Hstep Hnone Hsome) as [Hzero Hpos].
  destruct (serve_conserves reqs2 (fst (run (handle req) w1)) o x0 (Hf2 Hf1))
    as [x [A [B C]]].
  { unfold lookup. rewrite Hd2. exact Hsome. }
  exists x. split; [exact A |].
  unfold reservations in B at 2. rewrite Hd2, Hzero in B. split; [lia | auto].
Qed.

(** [C1, amended] Requests served one after the other, whatever they are
    and whether or not the store answers every call: if no offer has a
    negative quantity before, none has one after. *)
Theorem quantity_never_negative_in_sequence (reqs : list Request) (w : World) :
  nonneg (offers w) ->
  forall x, In x (offers (serve reqs w)) -> 0 <= Offer.quantity (offer_doc x).
Proof.
  revert w; induction reqs as [| r reqs IH]; intros w Hn; cbn [serve].
  - exact Hn.
  - apply IH. destruct (db w) as [d |] eqn:Hd.
    + destruct (handle_db r w d Hd) as [d' [H1 [H2 _]]].
      unfold offers in *. rewrite H1. rewrite Hd in Hn.
      apply (db_step_nonneg d d'); [tauto | exact Hn].
    + rewrite (handle_unconfigured r w Hd). exact Hn.
Qed.

(** ** Ids as strings *)

Lemma hex_digit_char (m : N) : (m < 16)%N -> hex_digit (hex_char m) = Some m.
Proof.
  intro H.
  assert (E : In m (map N.of_nat (seq 0 16))).
  { apply in_map_iff. exists (N.to_nat m). split; [apply N2Nat.id |].
    apply in_seq. lia. }
  cbn in E.
  repeat (destruct E as [<- | E]; [reflexivity |]). contradiction.
Qed.

Lemma fromhex_hex_of (digits : nat) (n : N) (acc : string) (a : N) :
  fromhex (hex_of digits n acc) a
  = fromhex acc (a * 16 ^ N.of_nat digits + n mod 16 ^ N.of_nat digits)%N.
Proof.
  revert n acc; induction digits as [| k IH]; intros n acc.
  - cbn [hex_of]. f_equal. cbn. rewrite N.mod_1_r. lia.
  - cbn [hex_of]. rewrite IH. cbn [fromhex].
    rewrite hex_digit_char by (apply N.mod_lt; discriminate).
    f_equal. rewrite Nat2N.inj_succ, N.pow_succ_r'.
    rewrite (N.Div0.mod_mul_r n 16 (16 ^ N.of_nat k)). lia.
Qed.

Lemma length_hex_of (digits : nat) (n : N) (acc : string) :
  String.length (hex_of digits n acc) = (digits + String.length acc)%nat.
Proof.
  revert n acc; induction digits as [| k IH]; intros n acc; cbn [hex_of].
  - reflexivity.
  - rewrite IH. cbn [String.length]. lia.
Qed.

(** An id printed and read back is the same id. *)
Lemma ObjectId_oid_str (o : oid) :
  (o < oid_bound)%N -> ObjectId (oid_str o) = Some o.
Proof.
  intro H. unfold ObjectId, oid_str.
  assert (L : String.length (hex_of 24 o "") = 24%nat)
    by (rewrite length_hex_of; reflexivity).
  rewrite L. cbn [Nat.eqb].
  assert (V : fromhex (hex_of 24 o "") 0 = Some o).
  { rewrite fromhex_hex_of. cbn [fromhex]. f_equal.
    rewrite N.mul_0_l, N.add_0_l. apply N.mod_small. exact H. }
  destruct (bytes_fromhex_digits 12 _ 0%N o L V) as [b [B1 [B2 B3]]].
  rewrite B1. cbn [option_map]. unfold oid_of_bytes. rewrite B2, B3.
  reflexivity.
Qed.

(** ** More about reservations *)

Lemma find_inserted (res : ReservationIn.t) (o : oid) (d : DB) :
  coll_find_one o (inserted res d) = coll_find_one o d.
Proof. reflexivity. Qed.

Lemma find_committed_other (res : ReservationIn.t) (o o' : oid) (now : Z)
  (d : DB) :
  o' <> o ->
  coll_find_one o' (committed res o now d) = coll_find_one o' d.
Proof.
  intro Hne. unfold committed, inserted, coll_find_one. cbn.
  apply find_update_first_other; [exact Hne | apply patch_oid].
Qed.

(** [X1] A request for at least one unit and no more than the offer has,
    served by a store that answers: the answer is "Reserved" with the id of
    the new record; the offer keeps its fields, has exactly that many units
    less and the time of the request as its timestamp; one record, with
    status "reserved" and the request's data, is added after the others; no
    other offer changes.  Whether the offer is active plays no part. *)
Theorem reserve_accepts (res : ReservationIn.t) (w : World) (d : DB) (o : oid)
  (offer : OfferDoc) :
  db w = Some d ->
  faults w = [] ->
  ObjectId (ReservationIn.offer_id res) = Some o ->
  coll_find_one o d = Some offer ->
  1 <= ReservationIn.quantity res <= Offer.quantity (offer_doc offer) ->
  snd (run (reserve res) w) = inr (RReserved (oid_str (next_oid d)) "Reserved") /\
  lookup o (fst (run (reserve res) w))
  = Some (mkOfferDoc (offer_oid offer)
            (Offer.set_quantity
               (Offer.quantity (offer_doc offer) - ReservationIn.quantity res)
               (offer_doc offer))
            (Some (clock w))) /\
  reservations (fst (run (reserve res) w))
  = (coll_reservation d ++
     [mkReservationDoc (next_oid d)
        (Reservation.mk (ReservationIn.offer_id res)
           (ReservationIn.customer_name res) (ReservationIn.customer_phone res)
           (ReservationIn.quantity res) "reserved")])%list /\
  (forall o', o' <> o ->
     lookup o' (fst (run (reserve res) w)) = lookup o' w) /\
  List.length (offers (fst (run (reserve res) w))) = List.length (coll_offer d).
Proof.
  intros Hd Hf Ho Hx Hr.
  rewrite (reserve_path_ok res w d o offer Hd Ho); rewrite ?Hf;
    try reflexivity; try assumption.
  unfold lookup, reservations, offers. cbn [fst snd db with_db].
  rewrite (find_committed res o (clock w) d offer Hx).
  split; [reflexivity | split; [| split; [reflexivity | split]]].
  - reflexivity.
  - intros o' Hne. rewrite Hd. apply find_committed_other, Hne.
  - unfold committed, inserted. cbn.
    rewrite <- (List.length_map offer_oid), map_oid_update_first
      by apply patch_oid.
    apply List.length_map.
Qed.

(** [X2] Reserving all the units an offer has succeeds and leaves it with
    none; from then on every request for one unit or more of that offer is
    refused with 400 "Not enough quantity" and changes nothing. *)
Theorem reserve_sells_out (w : World) (d : DB) (o : oid) (offer : OfferDoc)
  (res next : ReservationIn.t) :
  db w = Some d ->
  faults w = [] ->
  ObjectId (ReservationIn.offer_id res) = Some o ->
  ObjectId (ReservationIn.offer_id next) = Some o ->
  coll_find_one o d = Some offer ->
  1 <= Offer.quantity (offer_doc offer) ->
  ReservationIn.quantity res = Offer.quantity (offer_doc offer) ->
  1 <= ReservationIn.quantity next ->
  let sold := fst (run (reserve res) w) in
  (exists id, snd (run (reserve res) w) = inr (RReserved id "Reserved")) /\
  quantity_of o sold = Some 0 /\
  snd (run (reserve next) sold) = inl (HTTPException 400 "Not enough quantity") /\
  db (fst (run (reserve next) sold)) = db sold.
Proof.
  intros Hd Hf Ho Ho' Hx H1 Hq Hn sold.
  assert (Hr : 1 <= ReservationIn.quantity res
               <= Offer.quantity (offer_doc offer)) by lia.
  assert (E : run (reserve res) w =
              (with_db (committed res o (clock w) d) [] w,
               inr (RReserved (oid_str (next_oid d)) "Reserved"))).
  { rewrite (reserve_path_ok res w d o offer Hd Ho); rewrite ?Hf;
      try reflexivity; assumption. }
  unfold sold. rewrite E. cbn [fst snd].
  pose proof (find_committed res o (clock w) d offer Hx) as Hx1.
  set (d1 := committed res o (clock w) d) in *.
  set (x1 := patch (- ReservationIn.quantity res) (clock w) offer) in *.
  assert (Q1 : Offer.quantity (offer_doc x1) = 0).
  { unfold x1. rewrite patch_quantity. lia. }
  rewrite (reserve_path_not_enough next (with_db d1 [] w) d1 o x1);
    try reflexivity; try assumption; [| lia].
  unfold quantity_of, lookup. cbn [fst snd db with_db after_read faults tl].
  rewrite Hx1. cbn [option_map]. rewrite Q1.
  repeat split; try reflexivity. eexists; reflexivity.
Qed.

(** [X3] Without a configured database [get_offer] and [reserve] answer 500
    "Database not configured" whatever the id, well formed or not, and touch
    nothing. *)
Theorem unconfigured_is_500 (w : World) (offer_id : string)
  (res : ReservationIn.t) :
  db w = None ->
  run (get_offer offer_id) w
  = (w, inl (HTTPException 500 "Database not configured")) /\
  run (reserve res) w
  = (w, inl (HTTPException 500 "Database not configured")).
Proof.
  intro Hd. split.
  - apply get_offer_path_unconfigured, Hd.
  - apply reserve_path_unconfigured, Hd.
Qed.

(** [X4] A reservation for a well-formed id that no offer has is refused
    with 404 "Offer not found" whatever the quantity asked for, and the
    database stays as it was. *)
Theorem reserve_unknown_offer (res : ReservationIn.t) (w : World) (d : DB)
  (o : oid) :
  db w = Some d ->
  hd false (faults w) = false ->
  ObjectId (ReservationIn.offer_id res) = Some o ->
  coll_find_one o d = None ->
  snd (run (reserve res) w) = inl (HTTPException 404 "Offer not found") /\
  db (fst (run (reserve res) w)) = Some d.
Proof.
  intros Hd Hf Ho Hx.
  rewrite (reserve_path_not_found res w d o Hd Ho Hf Hx). split; reflexivity.
Qed.

(** The listing and the lookup by id only read. *)
Lemma store_read_db {X : Type} (g : DB -> X) (w : World) :
  db (fst (store_call (fun d => (d, g d)) w)) = db w.
Proof.
  destruct (db w) as [d |] eqn:Hd.
  - destruct (store_call_db (fun d => (d, g d)) w d Hd)
      as [[H _] | [H _]]; rewrite H; reflexivity.
  - rewrite (store_call_unconfigured _ w Hd). exact Hd.
Qed.

(** [X5] Listing offers and fetching one by id never change the database,
    whatever their arguments, the state of the store and their outcome. *)
Theorem reads_change_nothing (w : World) (city cuisine q : option string)
  (offer_id : string) :
  db (fst (run (list_offers city cuisine q) w)) = db w /\
  db (fst (run (get_offer offer_id) w)) = db w.
Proof.
  split.
  - rewrite list_offers_path, fst_match_result. apply store_read_db.
  - destruct (db w) as [d |] eqn:Hd.
    + destruct (ObjectId offer_id) as [o |] eqn:Ho.
      * rewrite (get_offer_path_lookup _ _ _ _ Hd Ho).
        pose proof (store_read_db (coll_find_one o) w) as R.
        destruct (store_call _ w) as [w' [e | [doc |]]]; cbn [fst] in *;
          congruence.
      * rewrite (get_offer_path_invalid_id _ _ _ Hd Ho). exact Hd.
    + rewrite (get_offer_path_unconfigured _ _ Hd). exact Hd.
Qed.

(** ** Requests that fail *)

Lemma store_call_cases {X : Type} (f : DB -> DB * X) (w : World) (d : DB) :
  db w = Some d ->
  (exists fs, store_call f w = (with_faults fs w, inl StoreUnavailableError)) \/
  store_call f w = (with_db (fst (f d)) (tl (faults w)) w, inr (snd (f d))).
Proof.
  intro Hd. destruct (faults_cases (faults w)) as [Hf | [fs Hf]].
  - right. apply store_call_ok; assumption.
  - left. exists fs. apply (store_call_fault f w d fs Hd Hf).
Qed.

(** How [reserve] can end: with an error and the database as it was, with
    the store's error and the record inserted, or with an answer. *)
Lemma reserve_cases (res : ReservationIn.t) (w : World) (d : DB) :
  db w = Some d ->
  (exists w' e, run (reserve res) w = (w', inl e) /\ db w' = Some d) \/
  (exists fs, run (reserve res) w
              = (with_db (inserted res d) fs w, inl StoreUnavailableError)) \/
  (exists w' r, run (reserve res) w = (w', inr r)).
Proof.
  intro Hd.
  destruct (ObjectId (ReservationIn.offer_id res)) as [o |] eqn:Ho.
  2:{ left. rewrite (reserve_path_invalid_id _ _ _ Hd Ho). eauto. }
  destruct (faults_cases (faults w)) as [Hf | [fs Hf]].
  2:{ left. rewrite (reserve_path_lookup_fault _ _ _ _ _ Hd Ho Hf). eauto. }
  destruct (coll_find_one o d) as [offer |] eqn:Hx.
  2:{ left. rewrite (reserve_path_not_found _ _ _ _ Hd Ho Hf Hx).
      do 2 eexists. split; reflexivity. }
  destruct (Z.lt_ge_cases (Offer.quantity (offer_doc offer))
                          (ReservationIn.quantity res)) as [Hq | Hq].
  { left. rewrite (reserve_path_not_enough _ _ _ _ _ Hd Ho Hf Hx Hq).
    do 2 eexists. split; reflexivity. }
  destruct (Z.lt_ge_cases (ReservationIn.quantity res) 1) as [H1 | H1].
  { left. rewrite (reserve_path_invalid_quantity _ _ _ _ _ Hd Ho Hf Hx Hq H1).
    do 2 eexists. split; reflexivity. }
  assert (Hr : 1 <= ReservationIn.quantity res
               <= Offer.quantity (offer_doc offer)) by lia.
  destruct (faults_cases (tl (faults w))) as [Hf2 | [fs Hf2]].
  2:{ left. rewrite (reserve_path_insert_fault _ _ _ _ _ _ Hd Ho Hf Hx Hr Hf2).
      do 2 eexists. split; reflexivity. }
  destruct (faults_cases (tl (tl (faults w)))) as [Hf3 | [fs Hf3]].
  - right; right. rewrite (reserve_path_ok _ _ _ _ _ Hd Ho Hf Hx Hr Hf2 Hf3).
    eauto.
  - right; left.
    rewrite (reserve_path_update_fault _ _ _ _ _ _ Hd Ho Hf Hx Hr Hf2 Hf3).
    eauto.
Qed.

(** [X6] A request that ends in an exception has changed no offer; and
    unless the exception is the store's own error, it has changed nothing in
    the database at all. *)
Theorem failure_leaves_store (req : Request) (w : World) (e : Exn) :
  snd (run (handle req) w) = inl e ->
  offers (fst (run (handle req) w)) = offers w /\
  (e <> StoreUnavailableError -> db (fst (run (handle req) w)) = db w).
Proof.
  intro He. destruct (db w) as [d |] eqn:Hd.
  2:{ rewrite (handle_unconfigured req w Hd). auto. }
  assert (Same : forall w', db w' = Some d ->
                   offers w' = offers w /\
                   (e <> StoreUnavailableError -> db w' = Some d)).
  { intros w' H. unfold offers. rewrite H, Hd. auto. }
  destruct req as [v | x code | c cu q | s | res]; cbn [handle] in *.
  - rewrite create_vendor_path in *.
    destruct (store_call_cases (insert_vendor v) w d Hd) as [[fs E] | E];
      rewrite E in *; [apply Same; exact Hd | discriminate].
  - destruct (Offer.valid x); [| apply Same; exact Hd].
    destruct (admitted code w) eqn:A;
      [| rewrite (create_offer_path_rejected _ _ _ A); apply Same; exact Hd].
    destruct (PrimFloat.ltb (Offer.original_price x) (Offer.price x)) eqn:P.
    + rewrite (create_offer_path_price _ _ _ A P). apply Same; exact Hd.
    + rewrite (create_offer_path_insert _ _ _ A P) in *.
      destruct (store_call_cases (insert_offer x) w d Hd) as [[fs E] | E];
        rewrite E in *; [apply Same; exact Hd | discriminate].
  - apply Same. rewrite list_offers_path, fst_match_result, store_read_db.
    exact Hd.
  - apply Same. destruct (ObjectId s) as [o |] eqn:Ho.
    + rewrite (get_offer_path_lookup _ _ _ _ Hd Ho).
      pose proof (store_read_db (coll_find_one o) w) as R.
      destruct (store_call _ w) as [w' [e' | [doc |]]]; cbn [fst] in *;
        congruence.
    + rewrite (get_offer_path_invalid_id _ _ _ Hd Ho). exact Hd.
  - destruct (reserve_cases res w d Hd)
      as [[w' [e' [E H]]] | [[fs E] | [w' [r E]]]]; rewrite E in *.
    + apply Same. exact H.
    + cbn [snd] in He. injection He as <-. split; [| congruence].
      unfold offers. cbn. rewrite Hd. reflexivity.
    + discriminate.
Qed.

(** ** The admin code *)

Lemma opt_str_eqb_eq (a b : option string) :
  opt_str_eqb a b = true <-> a = b.
Proof.
  destruct a as [x |], b as [y |]; cbn; split; intro H;
    try discriminate; try reflexivity.
  - apply String.eqb_eq in H. congruence.
  - injection H as ->. apply String.eqb_refl.
Qed.

(** [X7] [create_offer] answers 401 "Invalid admin code" exactly when the
    required code (the environment's ADMIN_CODE, "admin123" when it is not
    set) is not empty and the request's admin_code is not that code: an
    empty ADMIN_CODE lets every request through, and a missing admin_code
    passes only then. *)
Theorem admin_code_gate (offer : Offer.t) (admin_code : option string)
  (w : World) :
  let required :=
    match assoc "ADMIN_CODE" (environ w) with
    | Some c => c
    | None => "admin123"
    end in
  snd (run (create_offer offer admin_code) w)
  = inl (HTTPException 401 "Invalid admin code")
  <-> required <> "" /\ admin_code <> Some required.
Proof.
  cbv zeta. fold (required_code w).
  assert (G : admitted admin_code w = false <->
              required_code w <> "" /\ admin_code <> Some (required_code w)).
  { unfold admitted, truthy. rewrite negb_false_iff, andb_true_iff.
    rewrite !negb_true_iff. rewrite String.eqb_neq.
    rewrite <- not_true_iff_false, opt_str_eqb_eq. reflexivity. }
  split.
  - intro H. apply G. destruct (admitted admin_code w) eqn:A; [| reflexivity].
    exfalso.
    destruct (PrimFloat.ltb (Offer.original_price offer) (Offer.price offer))
      eqn:P.
    + rewrite (create_offer_path_price _ _ _ A P) in H. discriminate.
    + rewrite (create_offer_path_insert _ _ _ A P) in H.
      destruct (store_call (insert_offer offer) w) as [w' [e | x]] eqn:E;
        cbn [snd] in H.
      * destruct (db w) as [d |] eqn:Hd.
        -- destruct (store_call_cases (insert_offer offer) w d Hd)
             as [[fs E'] | E']; rewrite E' in E; congruence.
        -- rewrite (store_call_unconfigured _ w Hd) in E. congruence.
      * discriminate.
  - intro H. apply G in H. rewrite (create_offer_path_rejected _ _ _ H).
    reflexivity.
Qed.

(** ** Creating, listing and fetching offers *)

Lemma find_fresh (l : list OfferDoc) (x : OfferDoc) :
  (forall y, In y l -> offer_oid y <> offer_oid x) ->
  find (has_oid (offer_oid x)) (l ++ [x]) = Some x.
Proof.
  intro H. rewrite find_app_none.
  - cbn. unfold has_oid. rewrite N.eqb_refl. reflexivity.
  - destruct (find (has_oid (offer_oid x)) l) as [y |] eqn:E; [| reflexivity].
    apply find_some in E. destruct E as [Hy Ho]. apply has_oid_true in Ho.
    exfalso. exact (H y Hy Ho).
Qed.

Lemma find_unique (l : list OfferDoc) (x : OfferDoc) :
  NoDup (map offer_oid l) -> In x l ->
  find (has_oid (offer_oid x)) l = Some x.
Proof.
  induction l as [| y l IH]; intros Hnd Hin; [contradiction |].
  cbn [map] in Hnd. apply NoDup_cons_iff in Hnd. destruct Hnd as [Hy Hnd].
  cbn [find]. destruct Hin as [-> | Hin].
  - unfold has_oid. rewrite N.eqb_refl. reflexivity.
  - destruct (has_oid (offer_oid x) y) eqn:E; [| apply IH; assumption].
    apply has_oid_true in E. exfalso. apply Hy. rewrite E.
    apply in_map, Hin.
Qed.

Lemma get_offer_by_id_path (offer : Offer.t) (d : DB) (w : World) :
  wf d ->
  (next_oid d < oid_bound)%N ->
  run (get_offer (oid_str (next_oid d)))
      (with_db (fst (insert_offer offer d)) [] w)
  = (with_db (fst (insert_offer offer d)) [] w,
     inr (ROffer (oid_str (next_oid d)) offer None)).
Proof.
  intros [Hnd Hof Hrf] Hb.
  rewrite (get_offer_path_lookup _ _ (fst (insert_offer offer d)) (next_oid d))
    by (try reflexivity; apply ObjectId_oid_str, Hb).
  rewrite (store_call_ok _ _ (fst (insert_offer offer d))) by reflexivity.
  cbn [fst snd]. unfold coll_find_one. cbn [coll_offer insert_offer fst].
  pose proof (find_fresh (coll_offer d) (mkOfferDoc (next_oid d) offer None))
    as F. cbn [offer_oid] in F. rewrite F.
  - reflexivity.
  - intros y Hy. specialize (Hof y Hy). lia.
Qed.

(** [X8] An offer that passes the admin-code gate and is not priced above
    its original price (an equal price will do), sent to a store that
    answers: it is stored after the others, as it was sent and without a
    timestamp; the reservations are not touched; the answer is the new id;
    and fetching that id gives the offer back. *)
Theorem create_offer_then_get (offer : Offer.t) (admin_code : option string)
  (w : World) (d : DB) :
  db w = Some d ->
  faults w = [] ->
  wf d ->
  (next_oid d < oid_bound)%N ->
  admitted admin_code w = true ->
  PrimFloat.ltb (Offer.original_price offer) (Offer.price offer) = false ->
  let created := run (create_offer offer admin_code) w in
  snd created = inr (RId (oid_str (next_oid d))) /\
  offers (fst created)
  = (coll_offer d ++ [mkOfferDoc (next_oid d) offer None])%list /\
  reservations (fst created) = coll_reservation d /\
  run (get_offer (oid_str (next_oid d))) (fst created)
  = (fst created, inr (ROffer (oid_str (next_oid d)) offer None)).
Proof.
  intros Hd Hf Hw Hb A P created.
  assert (E : created =
              (with_db (fst (insert_offer offer d)) [] w,
               inr (RId (oid_str (next_oid d))))).
  { unfold created. rewrite (create_offer_path_insert _ _ _ A P).
    rewrite (store_call_ok _ w d Hd) by (rewrite Hf; reflexivity).
    rewrite Hf. reflexivity. }
  rewrite E. cbn [fst snd]. unfold offers, reservations. cbn [db with_db].
  split; [reflexivity | split; [reflexivity | split; [reflexivity |]]].
  rewrite (get_offer_by_id_path offer d w Hw Hb).
  reflexivity.
Qed.

Lemma matches_listed (city cuisine q : option string) (doc : OfferDoc) :
  matches (list_filter city cuisine q) doc = listed city cuisine q doc.
Proof.
  unfold listed, list_filter, matches.
  destruct city as [c |], cuisine as [cu |], q as [pat |];
    cbn [truthy];
    repeat match goal with
           | |- context [negb (String.eqb ?x "")] =>
               destruct (negb (String.eqb x ""))
           end;
    cbn; destruct (Offer.cuisine (offer_doc doc)); cbn;
    destruct (Offer.active (offer_doc doc)); cbn [Bool.eqb andb];
    rewrite ?andb_true_r, ?orb_false_r, ?orb_assoc, ?andb_assoc, ?andb_false_r;
    reflexivity.
Qed.
Lemma coll_find_listed (city cuisine q : option string) (d : DB) :
  coll_find (list_filter city cuisine q) 100 d
  = firstn 100 (filter (listed city cuisine q) (coll_offer d)).
Proof.
  unfold coll_find. f_equal. apply filter_ext. intro doc.
  apply matches_listed.
Qed.

(** [X9] What a listing answers when the store does: the stored offers, in
    the order of the store, that are active, in stock, of the city and the
    cuisine asked for (compared exactly; an empty string asks for nothing)
    and in whose title, vendor name or tags the query is found ignoring
    case; of these the first hundred, each with its id printed. *)
Theorem list_offers_result (city cuisine q : option string) (w : World)
  (d : DB) :
  db w = Some d ->
  hd false (faults w) = false ->
  snd (run (list_offers city cuisine q) w)
  = inr (ROffers
           (map offer_out
                (firstn 100 (filter (listed city cuisine q) (coll_offer d))))).
Proof.
  intros Hd Hf.
  rewrite list_offers_path, (store_call_ok _ w d Hd Hf). cbn [fst snd].
  rewrite coll_find_listed. reflexivity.
Qed.

(** [X10] A listing has as many entries as there are offers that qualify,
    but never more than 100: when no more than 100 qualify, every one of
    them is in the listing; when more do, the listing stops at 100 and the
    rest is left out without a word. *)
Theorem list_offers_count (city cuisine q : option string) (w : World)
  (d : DB) :
  db w = Some d ->
  hd false (faults w) = false ->
  exists result,
    snd (run (list_offers city cuisine q) w) = inr (ROffers result) /\
    List.length result
    = Nat.min 100 (List.length (filter (listed city cuisine q) (coll_offer d))) /\
    ((List.length (filter (listed city cuisine q) (coll_offer d)) <= 100)%nat ->
     forall doc, In doc (coll_offer d) -> listed city cuisine q doc = true ->
                 In (offer_out doc) result).
Proof.
  intros Hd Hf.
  exists (map offer_out (coll_find (list_filter city cuisine q) 100 d)).
  split; [| split].
  - rewrite list_offers_path, (store_call_ok _ w d Hd Hf). reflexivity.
  - rewrite List.length_map, coll_find_listed. apply List.length_firstn.
  - intros Hle doc Hin Hl. apply in_map. rewrite coll_find_listed.
    rewrite firstn_all2 by exact Hle. apply filter_In. split; assumption.
Qed.

Lemma listed_in_stock (city cuisine q : option string) (doc : OfferDoc) :
  listed city cuisine q doc = true -> 1 <= Offer.quantity (offer_doc doc).
Proof.
  unfold listed. intro H.
  do 3 (apply andb_true_iff in H; destruct H as [H _]).
  apply andb_true_iff in H. destruct H as [_ H]. apply Z.ltb_lt in H. lia.
Qed.

(** [X11] Every entry of a listing can be acted on with the id it shows:
    fetching that id gives the offer the entry was made from, and reserving
    one unit of it, right after the listing, is accepted. *)
Theorem listed_offer_can_be_taken (city cuisine q : option string) (w : World)
  (d : DB) (result : list OfferOut.t) (out : OfferOut.t)
  (customer_name customer_phone : string) :
  db w = Some d ->
  faults w = [] ->
  wf d ->
  (next_oid d <= oid_bound)%N ->
  snd (run (list_offers city cuisine q) w) = inr (ROffers result) ->
  In out result ->
  let w' := fst (run (list_offers city cuisine q) w) in
  (exists doc,
     In doc (coll_offer d) /\ out = offer_out doc /\
     run (get_offer (OfferOut.id out)) w'
     = (w', inr (ROffer (OfferOut.id out) (offer_doc doc)
                        (offer_updated_at doc)))) /\
  (exists id,
     snd (run (reserve (ReservationIn.mk (OfferOut.id out) customer_name
                                         customer_phone 1)) w')
     = inr (RReserved id "Reserved")).
Proof.
  intros Hd Hf Hw Hb Hres Hin w'.
  assert (Hhd : hd false (faults w) = false) by (rewrite Hf; reflexivity).
  assert (Ew : w' = with_db d [] w).
  { unfold w'. rewrite list_offers_path, (store_call_ok _ w d Hd Hhd), Hf.
    reflexivity. }
  rewrite list_offers_path, (store_call_ok _ w d Hd Hhd) in Hres.
  cbn [fst snd] in Hres. injection Hres as <-.
  apply in_map_iff in Hin. destruct Hin as [doc [<- Hdoc]].
  rewrite coll_find_listed in Hdoc. apply In_firstn, filter_In in Hdoc.
  destruct Hdoc as [Hdoc Hl].
  destruct Hw as [Hnd Hof Hrf].
  assert (Ho : ObjectId (oid_str (offer_oid doc)) = Some (offer_oid doc)).
  { apply ObjectId_oid_str. specialize (Hof doc Hdoc). lia. }
  pose proof (find_unique (coll_offer d) doc Hnd Hdoc) as Hx.
  rewrite Ew. cbn [OfferOut.id offer_out]. split.
  - exists doc. split; [exact Hdoc | split; [reflexivity |]].
    rewrite (get_offer_path_lookup _ (with_db d [] w) d (offer_oid doc))
      by (try reflexivity; exact Ho).
    rewrite (store_call_ok _ (with_db d [] w) d) by reflexivity.
    cbn [fst snd]. unfold coll_find_one. rewrite Hx. reflexivity.
  - exists (oid_str (next_oid d)).
    rewrite (reserve_path_ok _ (with_db d [] w) d (offer_oid doc) doc);
      try reflexivity; try assumption.
    cbn. pose proof (listed_in_stock _ _ _ _ Hl). lia.
Qed.

(** ** What stays true of the stored documents *)

Lemma set_quantity_same (o : Offer.t) :
  Offer.set_quantity (Offer.quantity o) o = o.
Proof. destruct o; reflexivity. Qed.

Lemma later_of_refl (x : OfferDoc) : later_of x x.
Proof.
  unfold later_of. rewrite set_quantity_same. repeat split; lia.
Qed.

Lemma later_of_trans (x y z : OfferDoc) :
  later_of x y -> later_of y z -> later_of x z.
Proof.
  unfold later_of. intros [A1 [A2 A3]] [B1 [B2 B3]].
  repeat split; [congruence | | lia].
  rewrite B2 at 1. rewrite A2. reflexivity.
Qed.

Lemma later_of_patch (n t : Z) (x : OfferDoc) : n <= 0 -> later_of x (patch n t x).
Proof.
  intro H. unfold later_of. rewrite patch_quantity. cbn. repeat split; lia.
Qed.

Lemma db_step_keeps_offer (d d' : DB) (o : oid) (x : OfferDoc) :
  db_step d d' \/ db_torn d d' ->
  coll_find_one o d = Some x ->
  exists x', coll_find_one o d' = Some x' /\ later_of x x'.
Proof.
  intros [H | H] Hx;
    [destruct H as [| v | y V | res o1 offer now Ho Hx1 Hq]
    | destruct H as [res o1 offer Ho Hx1 Hq]].
  - exists x. split; [exact Hx | apply later_of_refl].
  - exists x. split; [exact Hx | apply later_of_refl].
  - exists x. split; [| apply later_of_refl].
    unfold coll_find_one in *. cbn. apply find_app_l, Hx.
  - destruct (N.eq_dec o o1) as [-> | Hne].
    + rewrite (find_committed res o1 now d x Hx). eexists. split; [reflexivity |].
      apply later_of_patch. lia.
    + rewrite (find_committed_other res o1 o now d Hne). exists x.
      split; [exact Hx | apply later_of_refl].
  - exists x. split; [exact Hx | apply later_of_refl].
Qed.

(** [X12] Offers are never deleted and never rewritten.  Whatever requests
    are served after an offer is in the store, and whether or not the store
    fails along the way, the offer is still found under its id with all its
    fields as they were, but for the timestamp and for the quantity, which
    has not increased. *)
Theorem offers_persist (reqs : list Request) (w : World) (o : oid)
  (x : OfferDoc) :
  lookup o w = Some x ->
  exists x', lookup o (serve reqs w) = Some x' /\ later_of x x'.
Proof.
  revert w x; induction reqs as [| r reqs IH]; intros w x Hx; cbn [serve].
  - exists x. split; [exact Hx | apply later_of_refl].
  - unfold lookup in Hx. destruct (db w) as [d |] eqn:Hd; [| discriminate].
    destruct (handle_db r w d Hd) as [d' [H1 [H2 _]]].
    destruct (db_step_keeps_offer d d' o x) as [x1 [A B]];
      [tauto | exact Hx |].
    destruct (IH (fst (run (handle r) w)) x1) as [x' [A' B']].
    { unfold lookup. rewrite H1. exact A. }
    exists x'. split; [exact A' | eapply later_of_trans; eassumption].
Qed.

Lemma sound_reservation_step (d d' : DB) (r : ReservationDoc) :
  db_step d d' \/ db_torn d d' ->
  sound_reservation d r -> sound_reservation d' r.
Proof.
  intros H [Q [S [o [x [Ho Hx]]]]].
  destruct (db_step_keeps_offer d d' o x H Hx) as [x' [Hx' _]].
  repeat split; try assumption. exists o, x'. auto.
Qed.

Lemma sound_reservation_new (res : ReservationIn.t) (d' : DB) (o : oid)
  (offer : OfferDoc) (n : oid) :
  ObjectId (ReservationIn.offer_id res) = Some o ->
  1 <= ReservationIn.quantity res ->
  coll_find_one o d' = Some offer ->
  sound_reservation d' (mkReservationDoc n (reservation_of res)).
Proof.
  intros Ho Hq Hx. repeat split; cbn; try assumption. exists o, offer. auto.
Qed.

Lemma db_step_sound_reservations (d d' : DB) :
  db_step d d' \/ db_torn d d' ->
  (forall r, In r (coll_reservation d) -> sound_reservation d r) ->
  forall r, In r (coll_reservation d') -> sound_reservation d' r.
Proof.
  intros H Hall r Hr.
  assert (Old : forall r, In r (coll_reservation d) -> sound_reservation d' r).
  { intros r0 Hr0. apply (sound_reservation_step d d' r0 H), Hall, Hr0. }
  destruct H as [H | H];
    [destruct H as [| v | y V | res o offer now Ho Hx Hq]
    | destruct H as [res o offer Ho Hx Hq]]; cbn in Hr; try (apply Old, Hr).
  - apply in_app_or in Hr. destruct Hr as [Hr | [<- | []]]; [apply Old, Hr |].
    eapply sound_reservation_new; [exact Ho | lia |].
    apply (find_committed res o now d offer Hx).
  - apply in_app_or in Hr. destruct Hr as [Hr | [<- | []]]; [apply Old, Hr |].
    eapply sound_reservation_new; [exact Ho | lia | exact Hx].
Qed.

(** [X13] If every reservation record in the store is for at least one
    unit, has status "reserved" and names an offer that is in the store,
    this is still so after any requests, whether or not the store fails
    along the way: no other status is ever written, and no record is left
    pointing at a missing offer. *)
Theorem reservations_stay_sound (reqs : list Request) (w : World) (d : DB) :
  db w = Some d ->
  (forall r, In r (coll_reservation d) -> sound_reservation d r) ->
  exists d', db (serve reqs w) = Some d' /\
             forall r, In r (coll_reservation d') -> sound_reservation d' r.
Proof.
  revert w d; induction reqs as [| r reqs IH]; intros w d Hd Hall; cbn [serve].
  - exists d. auto.
  - destruct (handle_db r w d Hd) as [d1 [H1 [H2 _]]].
    apply (IH _ d1 H1). apply (db_step_sound_reservations d d1); [tauto | exact Hall].
Qed.

(** The database [reserve] leaves behind: as it was, with the record only,
    or with the record and the decrement. *)
Lemma reserve_final_db (res : ReservationIn.t) (w : World) (d : DB) :
  db w = Some d ->
  db (fst (run (reserve res) w)) = Some d \/
  db (fst (run (reserve res) w)) = Some (inserted res d) \/
  exists o, db (fst (run (reserve res) w)) = Some (committed res o (clock w) d).
Proof.
  intro Hd.
  destruct (ObjectId (ReservationIn.offer_id res)) as [o |] eqn:Ho.
  2:{ left. rewrite (reserve_path_invalid_id _ _ _ Hd Ho). exact Hd. }
  destruct (faults_cases (faults w)) as [Hf | [fs Hf]].
  2:{ left. rewrite (reserve_path_lookup_fault _ _ _ _ _ Hd Ho Hf). exact Hd. }
  destruct (coll_find_one o d) as [offer |] eqn:Hx.
  2:{ left. rewrite (reserve_path_not_found _ _ _ _ Hd Ho Hf Hx). reflexivity. }
  destruct (Z.lt_ge_cases (Offer.quantity (offer_doc offer))
                          (ReservationIn.quantity res)) as [Hq | Hq].
  { left. rewrite (reserve_path_not_enough _ _ _ _ _ Hd Ho Hf Hx Hq).
    reflexivity. }
  destruct (Z.lt_ge_cases (ReservationIn.quantity res) 1) as [H1 | H1].
  { left. rewrite (reserve_path_invalid_quantity _ _ _ _ _ Hd Ho Hf Hx Hq H1).
    reflexivity. }
  assert (Hr : 1 <= ReservationIn.quantity res
               <= Offer.quantity (offer_doc offer)) by lia.
  destruct (faults_cases (tl (faults w))) as [Hf2 | [fs Hf2]].
  2:{ left. rewrite (reserve_path_insert_fault _ _ _ _ _ _ Hd Ho Hf Hx Hr Hf2).
      reflexivity. }
  destruct (faults_cases (tl (tl (faults w)))) as [Hf3 | [fs Hf3]].
  - right; right. exists o.
    rewrite (reserve_path_ok _ _ _ _ _ Hd Ho Hf Hx Hr Hf2 Hf3). reflexivity.
  - right; left.
    rewrite (reserve_path_update_fault _ _ _ _ _ _ Hd Ho Hf Hx Hr Hf2 Hf3).
    reflexivity.
Qed.

Lemma price_checked_patch (n t : Z) (x : OfferDoc) :
  price_checked x -> price_checked (patch n t x).
Proof. unfold price_checked. cbn. trivial. Qed.

Lemma handle_price_checked (req : Request) (w : World) :
  (forall x, In x (offers w) -> price_checked x) ->
  forall x, In x (offers (fst (run (handle req) w))) -> price_checked x.
Proof.
  intro Hall. destruct (db w) as [d |] eqn:Hd.
  2:{ rewrite (handle_unconfigured req w Hd). exact Hall. }
  assert (Same : forall w', db w' = Some d ->
                   forall x, In x (offers w') -> price_checked x).
  { intros w' H x. unfold offers in *. rewrite H. rewrite Hd in Hall.
    apply Hall. }
  destruct req as [v | y code | c cu q | s | res]; cbn [handle].
  - rewrite create_vendor_path, fst_match_result.
    destruct (store_call_cases (insert_vendor v) w d Hd) as [[fs E] | E];
      rewrite E; [apply Same; exact Hd |].
    intros x. unfold offers in *. cbn. rewrite Hd in Hall. apply Hall.
  - destruct (Offer.valid y); [| apply Same; exact Hd].
    destruct (admitted code w) eqn:A;
      [| rewrite (create_offer_path_rejected _ _ _ A); apply Same; exact Hd].
    destruct (PrimFloat.ltb (Offer.original_price y) (Offer.price y)) eqn:P.
    + rewrite (create_offer_path_price _ _ _ A P). apply Same; exact Hd.
    + rewrite (create_offer_path_insert _ _ _ A P), fst_match_result.
      destruct (store_call_cases (insert_offer y) w d Hd) as [[fs E] | E];
        rewrite E; [apply Same; exact Hd |].
      intros x. unfold offers in *. cbn. rewrite Hd in Hall. intro Hx.
      apply in_app_or in Hx. destruct Hx as [Hx | [<- | []]];
        [apply Hall, Hx | exact P].
  - apply Same. rewrite list_offers_path, fst_match_result, store_read_db.
    exact Hd.
  - apply Same. destruct (ObjectId s) as [o |] eqn:Ho.
    + rewrite (get_offer_path_lookup _ _ _ _ Hd Ho).
      pose proof (store_read_db (coll_find_one o) w) as R.
      destruct (store_call _ w) as [w' [e' | [doc |]]]; cbn [fst] in *;
        congruence.
    + rewrite (get_offer_path_invalid_id _ _ _ Hd Ho). exact Hd.
  - unfold offers in Hall. rewrite Hd in Hall.
    destruct (reserve_final_db res w d Hd) as [E | [E | [o E]]];
      intros x; unfold offers; rewrite E; cbn.
    + apply Hall.
    + apply Hall.
    + intro Hx. apply In_update_first in Hx.
      destruct Hx as [Hx | [x0 [Hx0 ->]]]; [apply Hall, Hx |].
      apply price_checked_patch, Hall. apply find_some in Hx0. apply Hx0.
Qed.

(** [X14] If no stored offer is priced above its original price, none is
    after any requests, whether or not the store fails along the way: the
    check at creation is the only way in, and reservations leave prices
    alone. *)
Theorem stored_prices_stay_checked (reqs : list Request) (w : World) :
  (forall x, In x (offers w) -> price_checked x) ->
  forall x, In x (offers (serve reqs w)) -> price_checked x.
Proof.
  revert w; induction reqs as [| r reqs IH]; intros w Hall; cbn [serve].
  - exact Hall.
  - apply IH. apply handle_price_checked, Hall.
Qed.

(** [X15] Creating a vendor never touches offers or reservations, whatever
    the outcome; when the store answers, the vendor is stored after the
    others as it was sent and the answer is its new id. *)
Theorem create_vendor_appends (vendor : Vendor.t) (w : World) :
  offers (fst (run (create_vendor vendor) w)) = offers w /\
  reservations (fst (run (create_vendor vendor) w)) = reservations w /\
  forall d, db w = Some d -> hd false (faults w) = false ->
    snd (run (create_vendor vendor) w) = inr (RId (oid_str (next_oid d))) /\
    exists d', db (fst (run (create_vendor vendor) w)) = Some d' /\
               coll_vendor d'
               = (coll_vendor d ++ [mkVendorDoc (next_oid d) vendor])%list.
Proof.
  rewrite create_vendor_path.
  destruct (db w) as [d |] eqn:Hd.
  - destruct (store_call_cases (insert_vendor vendor) w d Hd) as [[fs E] | E];
      rewrite E; unfold offers, reservations; cbn; rewrite ?Hd.
    + split; [reflexivity | split; [reflexivity |]].
      intros d0 _ Hf. exfalso.
      destruct (faults_cases (faults w)) as [Hf' | [fs' Hf']].
      * rewrite (store_call_ok _ w d Hd Hf') in E. discriminate.
      * rewrite Hf' in Hf. discriminate.
    + split; [reflexivity | split; [reflexivity |]].
      intros d0 H0 _. injection H0 as <-. split; [reflexivity |].
      eexists. split; reflexivity.
  - rewrite (store_call_unconfigured _ w Hd). unfold offers, reservations.
    cbn. split; [reflexivity | split; [reflexivity |]]. intros d0 H0.
    discriminate.
Qed.

(** ** Requests served at the same time *)

Lemma reserve_calm (res : ReservationIn.t) : calm (reserve res).
Proof.
  unfold reserve, call, parse_oid, Reservation_init. cbn [bind].
  apply calm_db. intros [|]; [apply calm_raise |].
  destruct (ObjectId (ReservationIn.offer_id res)) as [o |] eqn:Ho;
    cbn [bind]; [| apply calm_raise].
  apply calm_find. intros [offer |]; [| apply calm_raise].
  destruct (Offer.quantity (offer_doc offer) <? ReservationIn.quantity res);
    [apply calm_raise |].
  destruct (ReservationIn.quantity res <? 1); cbn [bind]; [apply calm_raise |].
  apply (calm_reservation _ o); [exact Ho | reflexivity |].
  intro id. cbn [bind Reservation.quantity]. apply pending_clock. intro t.
  apply due_update. intro u. exact I.
Qed.

Lemma handle_calm (req : Request) : calm (handle req).
Proof.
  destruct req as [v | x code | c cu q | s | res]; cbn [handle].
  - unfold create_vendor, call. cbn [bind]. apply calm_vendor. intro id.
    apply calm_ret.
  - destruct (Offer.valid x); [| apply calm_raise].
    unfold create_offer, call. cbn [bind]. apply calm_env. intro v.
    match goal with |- calm (if ?b then _ else _) => destruct b end;
      [apply calm_raise |].
    destruct (PrimFloat.ltb _ _); [apply calm_raise |]. cbn [bind].
    apply calm_offer. intro id. apply calm_ret.
  - unfold list_offers, call. cbn [bind]. apply calm_docs. intro l.
    apply calm_ret.
  - unfold get_offer, call, parse_oid. cbn [bind]. apply calm_db.
    intros [|]; [apply calm_raise |].
    destruct (ObjectId s); cbn [bind]; [| apply calm_raise].
    apply calm_find. intros [doc |]; [apply calm_ret | apply calm_raise].
  - apply reserve_calm.
Qed.

Lemma calm_owed (o : oid) (p : Prog Response) : calm p -> owed o p = 0.
Proof. intro H. destruct H; reflexivity. Qed.

Lemma finished_calm (p : Prog Response) : finished p -> calm p.
Proof.
  destruct p as [r | e | X op k]; cbn; intro H;
    [apply calm_ret | apply calm_raise | contradiction].
Qed.

Lemma due_owed (o o' : oid) (q : Z) (p : Prog Response) :
  due o q p -> owed_at_update o' p = (if N.eqb o o' then q else 0) /\
               owed o' p = (if N.eqb o o' then q else 0).
Proof.
  intro H. destruct H as [t k Hk]. cbn.
  destruct (N.eqb o o'); split; lia.
Qed.

Lemma pending_owed (o o' : oid) (q : Z) (p : Prog Response) :
  pending o q p -> owed o' p = if N.eqb o o' then q else 0.
Proof.
  intro H. destruct H as [k Hk | p Hp].
  - cbn. apply (due_owed o o' q (k 0) (Hk 0)).
  - apply (due_owed o o' q p Hp).
Qed.

Lemma finished_owed (o : oid) (pool : list (Prog Response)) :
  Forall finished pool -> owed_all o pool = 0.
Proof.
  induction 1 as [| p pool Hp _ IH]; cbn [owed_all]; [reflexivity |].
  rewrite IH, (calm_owed o p (finished_calm p Hp)). reflexivity.
Qed.

Lemma owed_all_set_nth (o : oid) (pool : list (Prog Response)) (i : nat)
  (p p' : Prog Response) :
  nth_error pool i = Some p ->
  owed_all o (set_nth i p' pool) = owed_all o pool - owed o p + owed o p'.
Proof.
  revert i; induction pool as [| a pool IH]; intros [| i] H; cbn in H;
    try discriminate.
  - injection H as ->. cbn [set_nth owed_all]. lia.
  - cbn [set_nth owed_all]. rewrite (IH i H). lia.
Qed.

Lemma Forall_set_nth {A : Type} (P : A -> Prop) (l : list A) (i : nat) (x : A) :
  Forall P l -> P x -> Forall P (set_nth i x l).
Proof.
  intros Hl Hx. revert i; induction Hl as [| a l Ha Hl IH]; intros [| i];
    cbn [set_nth]; constructor; auto.
Qed.
Lemma counts_for_reserved (r : Reservation.t) (o o' n : oid) :
  ObjectId (Reservation.offer_id r) = Some o ->
  Reservation.status r = "reserved" ->
  counts_for o' (mkReservationDoc n r) = N.eqb o o'.
Proof.
  intros Ho Hs. unfold counts_for, refers_to, cancelled. cbn.
  rewrite Ho, Hs. apply andb_true_r.
Qed.

(** One step of one handler, the store answering: the handler stays in one
    of the known shapes, and for every offer in the store the units held,
    less the units the handler owes, are what they were. *)
Lemma step_holdings (p : Prog Response) (w : World) (d : DB) (o : oid)
  (x : OfferDoc) :
  db w = Some d -> faults w = [] -> in_flight p ->
  coll_find_one o d = Some x ->
  exists d' x',
    db (fst (step p w)) = Some d' /\
    faults (fst (step p w)) = [] /\
    in_flight (snd (step p w)) /\
    coll_find_one o d' = Some x' /\
    holdings o d' x' - owed o (snd (step p w)) = holdings o d x - owed o p.
Proof.
  intros Hd Hf Hp Hx.
  assert (Hhd : hd false (faults w) = false) by (rewrite Hf; reflexivity).
  assert (Stay : forall p', in_flight p' -> owed o p' = owed o p ->
            exists d' x',
              db w = Some d' /\ faults w = [] /\ in_flight p' /\
              coll_find_one o d' = Some x' /\
              holdings o d' x' - owed o p' = holdings o d x - owed o p).
  { intros p' H1 H2. exists d, x. rewrite H2. auto. }
  destruct Hp as [Hc | [o1 [q Hq]]].
  - destruct Hc as [r | e | k Hk | name k Hk | o1 k Hk | filt limit k Hk
                    | v k Hk | y k Hk | r o1 k Ho Hs Hk].
    + apply Stay; [left; apply calm_ret | reflexivity].
    + apply Stay; [left; apply calm_raise | reflexivity].
    + cbn [step exec fst snd]. apply Stay; [left; apply Hk |].
      rewrite !calm_owed; [reflexivity | apply calm_db, Hk | apply Hk].
    + cbn [step exec fst snd]. apply Stay; [left; apply Hk |].
      rewrite !calm_owed; [reflexivity | apply calm_env, Hk | apply Hk].
    + cbn [step exec]. rewrite (store_call_ok _ w d Hd Hhd), Hf.
      cbn [fst snd db with_db faults tl]. exists d, x.
      rewrite !calm_owed; [| apply calm_find, Hk | apply Hk].
      repeat split; try reflexivity; [left; apply Hk | exact Hx].
    + cbn [step exec]. rewrite (store_call_ok _ w d Hd Hhd), Hf.
      cbn [fst snd db with_db faults tl]. exists d, x.
      rewrite !calm_owed; [| apply calm_docs, Hk | apply Hk].
      repeat split; try reflexivity; [left; apply Hk | exact Hx].
    + cbn [step exec]. rewrite (store_call_ok _ w d Hd Hhd), Hf.
      cbn [fst snd db with_db faults tl insert_vendor].
      eexists; exists x.
      rewrite !calm_owed; [| apply calm_vendor, Hk | apply Hk].
      repeat split; try reflexivity; [left; apply Hk | exact Hx].
    + cbn [step exec]. rewrite (store_call_ok _ w d Hd Hhd), Hf.
      cbn [fst snd db with_db faults tl insert_offer].
      eexists; exists x.
      rewrite !calm_owed; [| apply calm_offer, Hk | apply Hk].
      repeat split; try reflexivity; [left; apply Hk |].
      unfold coll_find_one in *. cbn. apply find_app_l, Hx.
    + cbn [step exec]. rewrite (store_call_ok _ w d Hd Hhd), Hf.
      cbn [fst snd db with_db faults tl insert_reservation].
      eexists; exists x.
      rewrite (pending_owed o1 o _ _ (Hk (oid_str (next_oid d)))).
      rewrite (calm_owed o _ (calm_reservation r o1 k Ho Hs Hk)).
      repeat split; try reflexivity;
        [right; exists o1, (Reservation.quantity r); apply Hk | exact Hx |].
      unfold holdings. cbn [coll_reservation].
      rewrite reserved_units_snoc, (counts_for_reserved r o1 o _ Ho Hs).
      cbn [reservation_doc]. destruct (N.eqb o1 o); lia.
  - destruct Hq as [k Hk | p Hp].
    + cbn [step exec fst snd]. apply Stay.
      * right. exists o1, q. apply pending_due, Hk.
      * rewrite (pending_owed o1 o q _ (pending_clock o1 q k Hk)).
        apply (pending_owed o1 o q _ (pending_due o1 q _ (Hk (clock w)))).
    + pose proof (pending_owed o1 o q p (pending_due o1 q p Hp)) as Ow.
      destruct Hp as [t k Hk].
      cbn [step exec]. rewrite (store_call_ok _ w d Hd Hhd), Hf.
      cbn [fst snd db with_db faults tl]. rewrite Ow.
      rewrite (calm_owed o _ (finished_calm _ (Hk tt))).
      destruct (N.eqb_spec o1 o) as [-> | Hne].
      * exists (coll_update_one o (- q) t d), (patch (- q) t x).
        repeat split; try reflexivity; [left; apply finished_calm, Hk | |].
        -- unfold coll_find_one in *. cbn.
           rewrite find_update_first by apply patch_oid. rewrite Hx.
           reflexivity.
        -- unfold holdings. rewrite patch_quantity.
           cbn [coll_reservation coll_update_one]. lia.
      * exists (coll_update_one o1 (- q) t d), x.
        repeat split; try reflexivity; [left; apply finished_calm, Hk |].
        unfold coll_find_one in *. cbn.
        rewrite find_update_first_other by (try apply patch_oid; congruence).
        exact Hx.
Qed.
Lemma sched_holdings (schedule : list nat) (w : World)
  (pool : list (Prog Response)) (d : DB) (o : oid) (x : OfferDoc) :
  db w = Some d -> faults w = [] -> Forall in_flight pool ->
  coll_find_one o d = Some x ->
  exists d' x',
    db (fst (sched schedule w pool)) = Some d' /\
    Forall in_flight (snd (sched schedule w pool)) /\
    coll_find_one o d' = Some x' /\
    holdings o d' x' - owed_all o (snd (sched schedule w pool))
    = holdings o d x - owed_all o pool.
Proof.
  revert w pool d x; induction schedule as [| i rest IH];
    intros w pool d x Hd Hf Hp Hx; cbn [sched].
  - exists d, x. auto.
  - destruct (nth_error pool i) as [p |] eqn:Hi; [| apply IH; assumption].
    assert (Hin : in_flight p).
    { apply (proj1 (Forall_forall in_flight pool) Hp), (nth_error_In _ _ Hi). }
    destruct (step_holdings p w d o x Hd Hf Hin Hx)
      as [d1 [x1 [Hd1 [Hf1 [Hp1 [Hx1 B1]]]]]].
    destruct (step p w) as [w1 p1]. cbn [fst snd] in *.
    destruct (IH w1 (set_nth i p1 pool) d1 x1 Hd1 Hf1
                (Forall_set_nth _ _ _ _ Hp Hp1) Hx1)
      as [d' [x' [Hd' [Hp' [Hx' B']]]]].
    exists d', x'. repeat split; try assumption.
    rewrite B', (owed_all_set_nth o pool i p p1 Hi). lia.
Qed.

Lemma handlers_owe_nothing (o : oid) (reqs : list Request) :
  owed_all o (map handle reqs) = 0 /\ Forall in_flight (map handle reqs).
Proof.
  induction reqs as [| r reqs [IH1 IH2]]; cbn [map owed_all].
  - split; [reflexivity | constructor].
  - split.
    + rewrite IH1, (calm_owed o _ (handle_calm r)). reflexivity.
    + constructor; [left; apply handle_calm | exact IH2].
Qed.

(** [X16] Any number of requests served at the same time by a store that
    answers, their store calls interleaved in any order.  At every moment,
    for every offer that was in the store at the start, the units in
    non-cancelled reservation records for it plus the units it has left are
    what they were at the start, plus the units of the handlers standing
    between their insert and their update; once all handlers have ended the
    two totals are equal.  (What is left may then be negative.) *)
Theorem interleaved_requests_conserve_units (schedule : list nat)
  (reqs : list Request) (w : World) (o : oid) (x : OfferDoc) :
  faults w = [] ->
  lookup o w = Some x ->
  exists x',
    lookup o (fst (sched schedule w (map handle reqs))) = Some x' /\
    reserved_units o (reservations (fst (sched schedule w (map handle reqs))))
    + Offer.quantity (offer_doc x')
    = reserved_units o (reservations w) + Offer.quantity (offer_doc x)
      + owed_all o (snd (sched schedule w (map handle reqs))) /\
    (Forall finished (snd (sched schedule w (map handle reqs))) ->
     reserved_units o (reservations (fst (sched schedule w (map handle reqs))))
     + Offer.quantity (offer_doc x')
     = reserved_units o (reservations w) + Offer.quantity (offer_doc x)).
Proof.
  intros Hf Hx. unfold lookup in Hx.
  destruct (db w) as [d |] eqn:Hd; [| discriminate].
  destruct (handlers_owe_nothing o reqs) as [Z0 Hp].
  destruct (sched_holdings schedule w (map handle reqs) d o x Hd Hf Hp Hx)
    as [d' [x' [Hd' [_ [Hx' B]]]]].
  exists x'. unfold lookup, reservations. rewrite Hd', Hd.
  unfold holdings in B. rewrite Z0 in B.
  split; [exact Hx' | split; [lia |]].
  intro Hfin. rewrite (finished_owed o _ Hfin) in B. lia.
Qed.

(** [X17] Nothing recognises a request that was already served: sending the
    same reservation twice, while the offer has enough units for both,
    reserves twice.  Both requests are answered "Reserved", two records with
    the same data are added, and the offer has twice that many units
    less. *)
Theorem reserve_again_reserves_again (res : ReservationIn.t) (w : World)
  (d : DB) (o : oid) (offer : OfferDoc) :
  db w = Some d ->
  faults w = [] ->
  ObjectId (ReservationIn.offer_id res) = Some o ->
  coll_find_one o d = Some offer ->
  1 <= ReservationIn.quantity res ->
  2 * ReservationIn.quantity res <= Offer.quantity (offer_doc offer) ->
  let first := run (reserve res) w in
  let second := run (reserve res) (fst first) in
  (exists id, snd first = inr (RReserved id "Reserved")) /\
  (exists id, snd second = inr (RReserved id "Reserved")) /\
  (exists r1 r2,
     reservations (fst second) = (coll_reservation d ++ [r1; r2])%list /\
     reservation_doc r1 = reservation_of res /\
     reservation_doc r2 = reservation_of res) /\
  quantity_of o (fst second)
  = Some (Offer.quantity (offer_doc offer) - 2 * ReservationIn.quantity res).
Proof.
  intros Hd Hf Ho Hx H1 H2 first second.
  assert (E1 : first =
               (with_db (committed res o (clock w) d) [] w,
                inr (RReserved (oid_str (next_oid d)) "Reserved"))).
  { unfold first.
    rewrite (reserve_path_ok res w d o offer Hd Ho); rewrite ?Hf;
      try reflexivity; try assumption. lia. }
  pose proof (find_committed res o (clock w) d offer Hx) as Hx1.
  set (d1 := committed res o (clock w) d) in *.
  set (x1 := patch (- ReservationIn.quantity res) (clock w) offer) in *.
  assert (Q1 : Offer.quantity (offer_doc x1)
               = Offer.quantity (offer_doc offer) - ReservationIn.quantity res).
  { unfold x1. rewrite patch_quantity. lia. }
  assert (E2 : second =
               (with_db (committed res o (clock w) d1) [] w,
                inr (RReserved (oid_str (next_oid d1)) "Reserved"))).
  { unfold second. rewrite E1. cbn [fst].
    rewrite (reserve_path_ok res (with_db d1 [] w) d1 o x1);
      try reflexivity; try assumption. lia. }
  rewrite E2, E1. unfold quantity_of, lookup, reservations.
  cbn [fst snd db with_db].
  rewrite (find_committed res o (clock w) d1 x1 Hx1). cbn [option_map].
  rewrite patch_quantity, Q1.
  split; [eexists; reflexivity | split; [eexists; reflexivity | split]].
  - exists (mkReservationDoc (next_oid d) (reservation_of res)),
           (mkReservationDoc (next_oid d1) (reservation_of res)).
    split; [| split; reflexivity].
    unfold d1, committed, inserted. cbn. rewrite <- app_assoc. reflexivity.
  - f_equal. lia.
Qed.

End Store.

(** ** The statements at work on the sample data *)

Lemma list_offers_only_available_witness :
  db (shop 0 true []) = Some (shop_db 0 true) /\
  hd false (faults (shop 0 true [])) = false /\
  exists result,
    run literal_search (list_offers (Some "Tirana") None (Some "bak"))
        (shop 0 true [])
    = (after_read (shop 0 true []) (shop_db 0 true), inr (ROffers result)) /\
    db (after_read (shop 0 true []) (shop_db 0 true)) = Some (shop_db 0 true) /\
    (forall out, In out result ->
       0 < OfferOut.quantity out /\
       exists doc, In doc (coll_offer (shop_db 0 true)) /\ out = offer_out doc /\
                   Offer.active (offer_doc doc) = true /\
                   0 < Offer.quantity (offer_doc doc)) /\
    (forall doc, In doc (coll_offer (shop_db 0 true)) ->
       Offer.quantity (offer_doc doc) = 0 -> ~ In (offer_out doc) result).
Proof.
  split; [reflexivity | split; [reflexivity |]].
  apply (list_offers_only_available literal_search (Some "Tirana") None
           (Some "bak") (shop 0 true []) (shop_db 0 true));
    reflexivity.
Defined.

(** [C8] An offer that exists but is not active is returned by [get_offer],
    not answered with 404. *)
Lemma get_offer_returns_inactive :
  Offer.active (bag 5 false) = false /\
  lookup bag_oid (shop 5 false [])
  = Some (mkOfferDoc bag_oid (bag 5 false) None) /\
  run literal_search (get_offer bag_id) (shop 5 false [])
  = (shop 5 false [], inr (ROffer bag_id (bag 5 false) None)) /\
  snd (run literal_search (get_offer bag_id) (shop 5 false []))
  <> inl (HTTPException 404 "Offer not found").
Proof.
  split; [reflexivity | split; [reflexivity | split; [reflexivity |]]].
  vm_compute. discriminate.
Qed.

Lemma get_offer_by_id_only_witness :
  db (shop 5 false []) = Some (shop_db 5 false) /\
  hd false (faults (shop 5 false [])) = false /\
  ObjectId bag_id = Some bag_oid /\
  run literal_search (get_offer bag_id) (shop 5 false []) =
  (after_read (shop 5 false []) (shop_db 5 false),
   match coll_find_one bag_oid (shop_db 5 false) with
   | None => inl not_found
   | Some doc => inr (ROffer (oid_str (offer_oid doc)) (offer_doc doc)
                             (offer_updated_at doc))
   end).
Proof.
  split; [reflexivity | split; [reflexivity | split; [reflexivity |]]].
  apply (get_offer_by_id_only literal_search bag_id (shop 5 false [])
           (shop_db 5 false) bag_oid); reflexivity.
Defined.

Lemma create_offer_price_above_original_witness :
  PrimFloat.ltb (Offer.original_price overpriced) (Offer.price overpriced)
  = true /\
  admitted (Some "admin123") (empty_store []) = true /\
  fst (run literal_search (create_offer overpriced (Some "admin123"))
           (empty_store []))
  = empty_store [] /\
  snd (run literal_search (create_offer overpriced (Some "admin123"))
           (empty_store []))
  = inl (HTTPException 400 "Price must be <= original price").
Proof.
  split; [reflexivity | split; [reflexivity |]].
  destruct (create_offer_price_above_original literal_search overpriced
              (Some "admin123") (empty_store []) eq_refl) as [A B].
  split; [exact A | exact (B eq_refl)].
Defined.

Lemma reserve_insufficient_quantity_witness :
  db (shop 2 true []) = Some (shop_db 2 true) /\
  hd false (faults (shop 2 true [])) = false /\
  ObjectId (ReservationIn.offer_id (ask 3)) = Some bag_oid /\
  coll_find_one bag_oid (shop_db 2 true)
  = Some (mkOfferDoc bag_oid (bag 2 true) None) /\
  Offer.quantity (offer_doc (mkOfferDoc bag_oid (bag 2 true) None))
  < ReservationIn.quantity (ask 3) /\
  snd (run literal_search (reserve (ask 3)) (shop 2 true []))
  = inl (HTTPException 400 "Not enough quantity") /\
  db (fst (run literal_search (reserve (ask 3)) (shop 2 true [])))
  = Some (shop_db 2 true) /\
  lookup bag_oid (fst (run literal_search (reserve (ask 3)) (shop 2 true [])))
  = Some (mkOfferDoc bag_oid (bag 2 true) None) /\
  reservations (fst (run literal_search (reserve (ask 3)) (shop 2 true [])))
  = coll_reservation (shop_db 2 true).
Proof.
  split; [reflexivity | split; [reflexivity | split; [reflexivity |
    split; [reflexivity | split; [reflexivity |]]]]].
  apply (reserve_insufficient_quantity literal_search (ask 3) (shop 2 true [])
           (shop_db 2 true) bag_oid (mkOfferDoc bag_oid (bag 2 true) None));
    reflexivity.
Defined.

(** [C9] The two interleaved reservations of 3 and 4 leave the offer of 5
    with -2 units.  Against that offer a request for -1 unit, or for 0, is
    answered 400 "Not enough quantity": the comparison "available <
    requested" is true, and the [Reservation] model is never built. *)
Lemma reserve_nonpositive_on_oversold_offer :
  let oversold := fst (sched literal_search [0; 0; 1; 1; 0; 0; 0; 1; 1; 1]%nat
                             (shop 5 true [])
                             [reserve (ask 3); reserve (ask 4)]) in
  quantity_of bag_oid oversold = Some (-2) /\
  ReservationIn.quantity (ask (-1)) <= 0 /\
  ReservationIn.quantity (ask 0) <= 0 /\
  snd (run literal_search (reserve (ask (-1))) oversold)
  = inl (HTTPException 400 "Not enough quantity") /\
  snd (run literal_search (reserve (ask 0)) oversold)
  = inl (HTTPException 400 "Not enough quantity") /\
  snd (run literal_search (reserve (ask (-1))) oversold)
  <> inl (ValidationError "Reservation").
Proof.
  cbv zeta. split; [reflexivity | split; [discriminate | split;
    [discriminate | split; [reflexivity | split; [reflexivity |]]]]].
  vm_compute. discriminate.
Qed.

Lemma reserve_nonpositive_quantity_witness :
  db (shop 5 true []) = Some (shop_db 5 true) /\
  hd false (faults (shop 5 true [])) = false /\
  ObjectId (ReservationIn.offer_id (ask (-1))) = Some bag_oid /\
  coll_find_one bag_oid (shop_db 5 true) = Some (bag_doc 5 true) /\
  ReservationIn.quantity (ask (-1)) <= 0 /\
  0 <= Offer.quantity (offer_doc (bag_doc 5 true)) /\
  snd (run literal_search (reserve (ask (-1))) (shop 5 true []))
  = inl (ValidationError "Reservation") /\
  db (fst (run literal_search (reserve (ask (-1))) (shop 5 true [])))
  = Some (shop_db 5 true) /\
  db (shop (-2) true []) = Some (shop_db (-2) true) /\
  coll_find_one bag_oid (shop_db (-2) true) = Some (bag_doc (-2) true) /\
  Offer.quantity (offer_doc (bag_doc (-2) true))
  < ReservationIn.quantity (ask (-1)) /\
  snd (run literal_search (reserve (ask (-1))) (shop (-2) true []))
  = inl (HTTPException 400 "Not enough quantity").
Proof.
  assert (H1 : ReservationIn.quantity (ask (-1)) <= 0) by discriminate.
  assert (H0 : 0 <= Offer.quantity (offer_doc (bag_doc 5 true)))
    by discriminate.
  assert (H2 : Offer.quantity (offer_doc (bag_doc (-2) true))
               < ReservationIn.quantity (ask (-1))) by reflexivity.
  destruct (reserve_nonpositive_quantity literal_search (ask (-1))
              (shop 5 true []) (shop_db 5 true) bag_oid (bag_doc 5 true)
              eq_refl eq_refl eq_refl eq_refl H1) as [_ [B [_ [_ [A _]]]]].
  destruct (reserve_nonpositive_quantity literal_search (ask (-1))
              (shop (-2) true []) (shop_db (-2) true) bag_oid
              (bag_doc (-2) true) eq_refl eq_refl eq_refl eq_refl H1)
    as [_ [_ [_ [_ [_ C]]]]].
  split; [reflexivity | split; [reflexivity | split; [reflexivity |
    split; [reflexivity | split; [exact H1 | split; [exact H0 |
    split; [exact (A H0) | split; [exact B | split; [reflexivity |
    split; [reflexivity | split; [exact H2 | exact (C H2)]]]]]]]]]]].
Defined.

(** [C10] A string of 24 characters that is not 24 hexadecimal digits, with
    white space between its bytes: [ObjectId] accepts it, the id it denotes
    is looked up, and both handlers answer 404 "Offer not found", not
    [InvalidId]. *)
Lemma spaced_id_is_looked_up :
  String.length spaced_id = 24%nat /\
  In " "%char (list_ascii_of_string spaced_id) /\
  hex_digit " "%char = None /\
  run literal_search (get_offer spaced_id) (shop 5 true [])
  = (shop 5 true [], inl (HTTPException 404 "Offer not found")) /\
  run literal_search
      (reserve (ReservationIn.mk spaced_id "Ana" "0690000000" 1))
      (shop 5 true [])
  = (shop 5 true [], inl (HTTPException 404 "Offer not found")) /\
  snd (run literal_search (get_offer spaced_id) (shop 5 true []))
  <> inl (InvalidId spaced_id).
Proof.
  split; [reflexivity | split; [| split; [reflexivity | split;
    [reflexivity | split; [reflexivity |]]]]].
  - cbn. do 20 right. left. reflexivity.
  - vm_compute. discriminate.
Qed.

Lemma malformed_id_raises_InvalidId_witness :
  db (shop 5 true []) = Some (shop_db 5 true) /\
  String.length "bag-10" <> 24%nat /\
  bytes_fromhex "0000000000000000000000zz" = None /\
  run literal_search (get_offer "bag-10") (shop 5 true [])
  = (shop 5 true [], inl (InvalidId "bag-10")) /\
  run literal_search (reserve (ReservationIn.mk "bag-10" "Ana" "069" 1))
      (shop 5 true [])
  = (shop 5 true [], inl (InvalidId "bag-10")) /\
  run literal_search (get_offer "0000000000000000000000zz") (shop 5 true [])
  = (shop 5 true [], inl (InvalidId "0000000000000000000000zz")).
Proof.
  assert (L : String.length "bag-10" <> 24%nat) by discriminate.
  split; [reflexivity | split; [exact L | split; [reflexivity |]]].
  destruct (malformed_id_raises_InvalidId literal_search "bag-10"
              (shop 5 true []) (shop_db 5 true) eq_refl) as [H _].
  destruct (H (or_introl L)) as [A B].
  destruct (malformed_id_raises_InvalidId literal_search
              "0000000000000000000000zz" (shop 5 true []) (shop_db 5 true)
              eq_refl) as [H' _].
  destruct (H' (or_intror eq_refl)) as [A' _].
  split; [exact A | split; [apply B | exact A']].
Defined.

(** [C2] The store fails at the update of the offer, after the lookup, the
    validation and the insert of the record have succeeded: the request
    ends in the store's error, the reservation record stays, and the offer
    still has its 5 units. *)
Lemma reserve_torn_by_update_failure :
  lookup bag_oid (shop 5 true [false; false; true])
  = Some (mkOfferDoc bag_oid (bag 5 true) None) /\
  1 <= ReservationIn.quantity (ask 3) <= 5 /\
  snd (run literal_search (reserve (ask 3)) (shop 5 true [false; false; true]))
  = inl StoreUnavailableError /\
  reservations (shop 5 true [false; false; true]) = [] /\
  reservations
    (fst (run literal_search (reserve (ask 3))
              (shop 5 true [false; false; true])))
  = [mkReservationDoc 11%N
       (Reservation.mk bag_id "Ana" "0690000000" 3 "reserved")] /\
  quantity_of bag_oid
    (fst (run literal_search (reserve (ask 3))
              (shop 5 true [false; false; true])))
  = Some 5 /\
  db (fst (run literal_search (reserve (ask 3))
               (shop 5 true [false; false; true])))
  <> db (shop 5 true [false; false; true]).
Proof.
  split; [reflexivity | split; [split; discriminate |]].
  split; [reflexivity | split; [reflexivity | split; [reflexivity |
    split; [reflexivity |]]]].
  vm_compute. discriminate.
Qed.

Lemma reserve_commit_store_failure_witness :
  db (shop 5 true [false; false; true]) = Some (shop_db 5 true) /\
  hd false (faults (shop 5 true [false; false; true])) = false /\
  ObjectId (ReservationIn.offer_id (ask 3)) = Some bag_oid /\
  coll_find_one bag_oid (shop_db 5 true)
  = Some (mkOfferDoc bag_oid (bag 5 true) None) /\
  1 <= ReservationIn.quantity (ask 3)
  <= Offer.quantity (offer_doc (mkOfferDoc bag_oid (bag 5 true) None)) /\
  hd false (tl (faults (shop 5 true [false; false; true]))) = false /\
  tl (tl (faults (shop 5 true [false; false; true]))) = [true] /\
  run literal_search (reserve (ask 3)) (shop 5 true [false; false; true])
  = (with_db (inserted (ask 3) (shop_db 5 true)) []
             (shop 5 true [false; false; true]),
     inl StoreUnavailableError) /\
  run literal_search (reserve (ask 3)) (shop 5 true [false; true])
  = (with_db (shop_db 5 true) [] (shop 5 true [false; true]),
     inl StoreUnavailableError).
Proof.
  assert (R : 1 <= ReservationIn.quantity (ask 3)
              <= Offer.quantity
                   (offer_doc (mkOfferDoc bag_oid (bag 5 true) None)))
    by (split; discriminate).
  split; [reflexivity | split; [reflexivity | split; [reflexivity |
    split; [reflexivity | split; [exact R | split; [reflexivity |
    split; [reflexivity | split]]]]]]].
  - destruct (reserve_commit_store_failure literal_search (ask 3)
                (shop 5 true [false; false; true]) (shop_db 5 true) bag_oid
                (mkOfferDoc bag_oid (bag 5 true) None) []
                eq_refl eq_refl eq_refl eq_refl R) as [_ H].
    destruct (H eq_refl eq_refl) as [A _]. exact A.
  - destruct (reserve_commit_store_failure literal_search (ask 3)
                (shop 5 true [false; true]) (shop_db 5 true) bag_oid
                (mkOfferDoc bag_oid (bag 5 true) None) []
                eq_refl eq_refl eq_refl eq_refl R) as [H _].
    exact (H eq_refl).
Defined.

Lemma scenario_reserve_3_3_2_witness :
  db (shop 5 true []) = Some (shop_db 5 true) /\
  faults (shop 5 true []) = [] /\
  ObjectId bag_id = Some bag_oid /\
  coll_find_one bag_oid (shop_db 5 true)
  = Some (mkOfferDoc bag_oid (bag 5 true) None) /\
  Offer.quantity (offer_doc (mkOfferDoc bag_oid (bag 5 true) None)) = 5 /\
  let first := run literal_search (reserve (ask 3)) (shop 5 true []) in
  let second := run literal_search (reserve (ask 3)) (fst first) in
  let third := run literal_search (reserve (ask 2)) (fst second) in
  snd first = inr (RReserved (oid_str (next_oid (shop_db 5 true))) "Reserved") /\
  quantity_of bag_oid (fst first) = Some 2 /\
  reservations (fst first) =
    (coll_reservation (shop_db 5 true) ++
     [mkReservationDoc (next_oid (shop_db 5 true))
        (Reservation.mk bag_id "Ana" "0690000000" 3 "reserved")])%list /\
  snd second = inl (HTTPException 400 "Not enough quantity") /\
  quantity_of bag_oid (fst second) = Some 2 /\
  reservations (fst second) = reservations (fst first) /\
  (exists id, snd third = inr (RReserved id "Reserved")) /\
  quantity_of bag_oid (fst third) = Some 0.
Proof.
  split; [reflexivity | split; [reflexivity | split; [reflexivity |
    split; [reflexivity | split; [reflexivity |]]]]].
  apply (scenario_reserve_3_3_2 literal_search (shop 5 true [])
           (shop_db 5 true) bag_oid (mkOfferDoc bag_oid (bag 5 true) None)
           bag_id "Ana" "0690000000"); reflexivity.
Defined.

(** [C4] An offer is created with 5 units and 3 of them are reserved, the
    store failing at the update of the offer: 3 units are reserved and 5 are
    left, 8 in all for an offer created with 5. *)
Lemma units_not_conserved_after_store_failure :
  let w := empty_store [false; false; false; true] in
  lookup 0%N w = None /\
  quantity_of 0%N (serve literal_search [open_bag] w) = Some 5 /\
  quantity_of 0%N (serve literal_search [open_bag; take 3] w) = Some 5 /\
  reserved_units 0%N (reservations (serve literal_search [open_bag; take 3] w))
  = 3 /\
  reserved_units 0%N (reservations (serve literal_search [open_bag; take 3] w))
  + 5 <> 5.
Proof.
  cbv zeta. split; [reflexivity | split; [reflexivity | split; [reflexivity |
    split; [reflexivity |]]]].
  vm_compute. discriminate.
Qed.

Lemma empty_store_wf : wf_world (empty_store []).
Proof.
  cbn. constructor; cbn.
  - constructor.
  - intros x [].
  - intros r o [].
Defined.

Lemma units_conserved_witness :
  faults (empty_store []) = [] /\
  wf_world (empty_store []) /\
  lookup 0%N (serve literal_search [] (empty_store [])) = None /\
  lookup 0%N (serve literal_search ([] ++ [open_bag]) (empty_store []))
  = Some (mkOfferDoc 0%N (bag 5 true) None) /\
  exists x,
    lookup 0%N (serve literal_search ([] ++ open_bag :: [take 3; take 3; take 2])
                      (empty_store [])) = Some x /\
    reserved_units 0%N
      (reservations
         (serve literal_search ([] ++ open_bag :: [take 3; take 3; take 2])
                (empty_store [])))
    + Offer.quantity (offer_doc x)
    = Offer.quantity (offer_doc (mkOfferDoc 0%N (bag 5 true) None)) /\
    0 <= Offer.quantity (offer_doc x).
Proof.
  split; [reflexivity | split; [exact empty_store_wf | split; [reflexivity |
    split; [reflexivity |]]]].
  apply (units_conserved literal_search (empty_store []) [] open_bag
           [take 3; take 3; take 2] 0%N (mkOfferDoc 0%N (bag 5 true) None));
    [reflexivity | exact empty_store_wf | reflexivity | reflexivity].
Defined.

(** [C1] Two reservations of 3 and 4 units against an offer of 5, their
    store calls interleaved so that both look the offer up before either
    writes: both are accepted, and the offer is left with -2 units. *)
Lemma reserve_race_oversells :
  let after := sched literal_search [0; 0; 1; 1; 0; 0; 0; 1; 1; 1]%nat
                     (shop 5 true []) [reserve (ask 3); reserve (ask 4)] in
  nonneg (offers (shop 5 true [])) /\
  quantity_of bag_oid (shop 5 true []) = Some 5 /\
  snd after = [Ret (RReserved "00000000000000000000000b" "Reserved");
               Ret (RReserved "00000000000000000000000c" "Reserved")] /\
  quantity_of bag_oid (fst after) = Some (-2) /\
  ~ nonneg (offers (fst after)).
Proof.
  cbv zeta. split; [| split; [reflexivity | split; [reflexivity |
    split; [reflexivity |]]]].
  - intros x [<- | []]. discriminate.
  - intro H. specialize (H _ (or_introl eq_refl)). vm_compute in H.
    apply H. reflexivity.
Qed.

Lemma shop_nonneg : nonneg (offers (shop 5 true [])).
Proof. intros x [<- | []]. discriminate. Defined.

Lemma quantity_never_negative_in_sequence_witness :
  nonneg (offers (shop 5 true [])) /\
  forall x,
    In x (offers (serve literal_search
                    [POST_reservations (ask 3); POST_reservations (ask 4)]
                    (shop 5 true []))) ->
    0 <= Offer.quantity (offer_doc x).
Proof.
  split; [exact shop_nonneg |].
  apply (quantity_never_negative_in_sequence literal_search
           [POST_reservations (ask 3); POST_reservations (ask 4)]
           (shop 5 true [])).
  exact shop_nonneg.
Defined.

(** ** The further statements at work on the sample data *)

Lemma shop_db_wf (q : Z) (active : bool) : wf (shop_db q active).
Proof.
  constructor; cbn.
  - constructor; [intros [] | constructor].
  - intros x [<- | []]. reflexivity.
  - intros r o [].
Defined.

Lemma reserve_accepts_witness :
  db (shop 5 true []) = Some (shop_db 5 true) /\
  faults (shop 5 true []) = [] /\
  ObjectId (ReservationIn.offer_id (ask 3)) = Some bag_oid /\
  coll_find_one bag_oid (shop_db 5 true) = Some (bag_doc 5 true) /\
  1 <= ReservationIn.quantity (ask 3)
  <= Offer.quantity (offer_doc (bag_doc 5 true)) /\
  snd (run literal_search (reserve (ask 3)) (shop 5 true []))
  = inr (RReserved "00000000000000000000000b" "Reserved") /\
  lookup bag_oid (fst (run literal_search (reserve (ask 3)) (shop 5 true [])))
  = Some (mkOfferDoc bag_oid (bag 2 true) (Some 1000)).
Proof.
  assert (R : 1 <= ReservationIn.quantity (ask 3)
              <= Offer.quantity (offer_doc (bag_doc 5 true)))
    by (split; discriminate).
  split; [reflexivity | split; [reflexivity | split; [reflexivity |
    split; [reflexivity | split; [exact R |]]]]].
  destruct (reserve_accepts literal_search (ask 3) (shop 5 true [])
              (shop_db 5 true) bag_oid (bag_doc 5 true)
              eq_refl eq_refl eq_refl eq_refl R) as [A [B _]].
  split; [exact A | exact B].
Defined.

Lemma reserve_sells_out_witness :
  db (shop 3 true []) = Some (shop_db 3 true) /\
  faults (shop 3 true []) = [] /\
  ObjectId (ReservationIn.offer_id (ask 3)) = Some bag_oid /\
  ObjectId (ReservationIn.offer_id (ask 1)) = Some bag_oid /\
  coll_find_one bag_oid (shop_db 3 true) = Some (bag_doc 3 true) /\
  1 <= Offer.quantity (offer_doc (bag_doc 3 true)) /\
  ReservationIn.quantity (ask 3) = Offer.quantity (offer_doc (bag_doc 3 true)) /\
  1 <= ReservationIn.quantity (ask 1) /\
  quantity_of bag_oid
    (fst (run literal_search (reserve (ask 3)) (shop 3 true []))) = Some 0 /\
  snd (run literal_search (reserve (ask 1))
           (fst (run literal_search (reserve (ask 3)) (shop 3 true []))))
  = inl (HTTPException 400 "Not enough quantity").
Proof.
  assert (H1 : 1 <= Offer.quantity (offer_doc (bag_doc 3 true)))
    by discriminate.
  assert (H2 : 1 <= ReservationIn.quantity (ask 1)) by discriminate.
  split; [reflexivity | split; [reflexivity | split; [reflexivity |
    split; [reflexivity | split; [reflexivity | split; [exact H1 |
    split; [reflexivity | split; [exact H2 |]]]]]]]].
  destruct (reserve_sells_out literal_search (shop 3 true []) (shop_db 3 true)
              bag_oid (bag_doc 3 true) (ask 3) (ask 1)
              eq_refl eq_refl eq_refl eq_refl eq_refl H1 eq_refl H2)
    as [_ [A [B _]]].
  split; [exact A | exact B].
Defined.

Lemma unconfigured_is_500_witness :
  db no_store = None /\
  run literal_search (get_offer "not-an-id") no_store
  = (no_store, inl (HTTPException 500 "Database not configured")) /\
  run literal_search (reserve (ask 1)) no_store
  = (no_store, inl (HTTPException 500 "Database not configured")).
Proof.
  split; [reflexivity |].
  apply (unconfigured_is_500 literal_search no_store "not-an-id" (ask 1)).
  reflexivity.
Defined.

Lemma reserve_unknown_offer_witness :
  db (shop 5 true []) = Some (shop_db 5 true) /\
  hd false (faults (shop 5 true [])) = false /\
  ObjectId (ReservationIn.offer_id (ask_unknown 1)) = Some 0%N /\
  coll_find_one 0%N (shop_db 5 true) = None /\
  snd (run literal_search (reserve (ask_unknown 1)) (shop 5 true []))
  = inl (HTTPException 404 "Offer not found") /\
  db (fst (run literal_search (reserve (ask_unknown 1)) (shop 5 true [])))
  = Some (shop_db 5 true).
Proof.
  split; [reflexivity | split; [reflexivity | split; [reflexivity |
    split; [reflexivity |]]]].
  apply (reserve_unknown_offer literal_search (ask_unknown 1) (shop 5 true [])
           (shop_db 5 true) 0%N); reflexivity.
Defined.

Lemma failure_leaves_store_witness :
  snd (run literal_search (handle (POST_reservations (ask 9))) (shop 5 true []))
  = inl not_enough /\
  not_enough <> StoreUnavailableError /\
  offers (fst (run literal_search (handle (POST_reservations (ask 9)))
                   (shop 5 true [])))
  = offers (shop 5 true []) /\
  db (fst (run literal_search (handle (POST_reservations (ask 9)))
               (shop 5 true [])))
  = db (shop 5 true []).
Proof.
  assert (N : not_enough <> StoreUnavailableError) by discriminate.
  split; [reflexivity | split; [exact N |]].
  destruct (failure_leaves_store literal_search (POST_reservations (ask 9))
              (shop 5 true []) not_enough eq_refl) as [A B].
  split; [exact A | exact (B N)].
Defined.

Lemma create_offer_then_get_witness :
  db (empty_store []) = Some (mkDB [] [] [] 0%N) /\
  faults (empty_store []) = [] /\
  wf (mkDB [] [] [] 0%N) /\
  (next_oid (mkDB [] [] [] 0%N) < oid_bound)%N /\
  admitted (Some "admin123") (empty_store []) = true /\
  PrimFloat.ltb (Offer.original_price (bag 5 true)) (Offer.price (bag 5 true))
  = false /\
  snd (run literal_search (create_offer (bag 5 true) (Some "admin123"))
           (empty_store []))
  = inr (RId first_id) /\
  run literal_search (get_offer first_id)
      (fst (run literal_search (create_offer (bag 5 true) (Some "admin123"))
                (empty_store [])))
  = (fst (run literal_search (create_offer (bag 5 true) (Some "admin123"))
              (empty_store [])),
     inr (ROffer first_id (bag 5 true) None)).
Proof.
  split; [reflexivity | split; [reflexivity | split; [exact empty_store_wf |
    split; [reflexivity | split; [reflexivity | split; [reflexivity |]]]]]].
  destruct (create_offer_then_get literal_search (bag 5 true)
              (Some "admin123") (empty_store []) (mkDB [] [] [] 0%N)
              eq_refl eq_refl empty_store_wf eq_refl eq_refl eq_refl)
    as [A [_ [_ B]]].
  split; [exact A | exact B].
Defined.

Lemma list_offers_result_witness :
  db (shop 5 true []) = Some (shop_db 5 true) /\
  hd false (faults (shop 5 true [])) = false /\
  snd (run literal_search (list_offers (Some "Tirana") (Some "") (Some "VEG"))
           (shop 5 true []))
  = inr (ROffers
           (map offer_out
              (firstn 100
                 (filter (listed literal_search (Some "Tirana") (Some "")
                                 (Some "VEG"))
                         (coll_offer (shop_db 5 true)))))).
Proof.
  split; [reflexivity | split; [reflexivity |]].
  apply (list_offers_result literal_search (Some "Tirana") (Some "")
           (Some "VEG") (shop 5 true []) (shop_db 5 true)); reflexivity.
Defined.

Lemma list_offers_count_witness :
  db (shop 5 true []) = Some (shop_db 5 true) /\
  hd false (faults (shop 5 true [])) = false /\
  exists result,
    snd (run literal_search (list_offers None None None) (shop 5 true []))
    = inr (ROffers result) /\
    List.length result
    = Nat.min 100
        (List.length (filter (listed literal_search None None None)
                             (coll_offer (shop_db 5 true)))) /\
    ((List.length (filter (listed literal_search None None None)
                          (coll_offer (shop_db 5 true))) <= 100)%nat ->
     forall doc, In doc (coll_offer (shop_db 5 true)) ->
                 listed literal_search None None None doc = true ->
                 In (offer_out doc) result).
Proof.
  split; [reflexivity | split; [reflexivity |]].
  apply (list_offers_count literal_search None None None (shop 5 true [])
           (shop_db 5 true)); reflexivity.
Defined.

Lemma listed_offer_can_be_taken_witness :
  db (shop 5 true []) = Some (shop_db 5 true) /\
  faults (shop 5 true []) = [] /\
  wf (shop_db 5 true) /\
  (next_oid (shop_db 5 true) <= oid_bound)%N /\
  snd (run literal_search (list_offers None None None) (shop 5 true []))
  = inr (ROffers [offer_out (bag_doc 5 true)]) /\
  In (offer_out (bag_doc 5 true)) [offer_out (bag_doc 5 true)] /\
  exists id,
    snd (run literal_search
           (reserve (ReservationIn.mk (OfferOut.id (offer_out (bag_doc 5 true)))
                                      "Ana" "0690000000" 1))
           (fst (run literal_search (list_offers None None None)
                     (shop 5 true []))))
    = inr (RReserved id "Reserved").
Proof.
  assert (B : (next_oid (shop_db 5 true) <= oid_bound)%N) by discriminate.
  split; [reflexivity | split; [reflexivity | split; [apply shop_db_wf |
    split; [exact B | split; [reflexivity | split; [left; reflexivity |]]]]]].
  destruct (listed_offer_can_be_taken literal_search None None None
              (shop 5 true []) (shop_db 5 true) [offer_out (bag_doc 5 true)]
              (offer_out (bag_doc 5 true)) "Ana" "0690000000"
              eq_refl eq_refl (shop_db_wf 5 true) B eq_refl
              (or_introl eq_refl)) as [_ H].
  exact H.
Defined.

Lemma offers_persist_witness :
  lookup bag_oid (shop 5 true []) = Some (bag_doc 5 true) /\
  exists x',
    lookup bag_oid
      (serve literal_search [POST_reservations (ask 3)] (shop 5 true []))
    = Some x' /\
    later_of (bag_doc 5 true) x'.
Proof.
  split; [reflexivity |].
  apply (offers_persist literal_search [POST_reservations (ask 3)]
           (shop 5 true []) bag_oid (bag_doc 5 true)).
  reflexivity.
Defined.

Lemma reservations_stay_sound_witness :
  db (shop 5 true []) = Some (shop_db 5 true) /\
  (forall r, In r (coll_reservation (shop_db 5 true)) ->
             sound_reservation (shop_db 5 true) r) /\
  exists d',
    db (serve literal_search [POST_reservations (ask 3)] (shop 5 true []))
    = Some d' /\
    forall r, In r (coll_reservation d') -> sound_reservation d' r.
Proof.
  assert (H : forall r, In r (coll_reservation (shop_db 5 true)) ->
                        sound_reservation (shop_db 5 true) r)
    by (intros r []).
  split; [reflexivity | split; [exact H |]].
  apply (reservations_stay_sound literal_search [POST_reservations (ask 3)]
           (shop 5 true []) (shop_db 5 true) eq_refl H).
Defined.

Lemma stored_prices_stay_checked_witness :
  (forall x, In x (offers (shop 5 true [])) -> price_checked x) /\
  forall x,
    In x (offers (serve literal_search
                    [POST_offers overpriced (Some "admin123");
                     POST_reservations (ask 3)]
                    (shop 5 true []))) ->
    price_checked x.
Proof.
  assert (H : forall x, In x (offers (shop 5 true [])) -> price_checked x)
    by (intros x [<- | []]; reflexivity).
  split; [exact H |].
  apply (stored_prices_stay_checked literal_search
           [POST_offers overpriced (Some "admin123"); POST_reservations (ask 3)]
           (shop 5 true []) H).
Defined.

Lemma interleaved_requests_conserve_units_witness :
  faults (shop 5 true []) = [] /\
  lookup bag_oid (shop 5 true []) = Some (bag_doc 5 true) /\
  exists x',
    lookup bag_oid
      (fst (sched literal_search [0; 0; 1; 1; 0; 0; 0; 1; 1; 1]%nat
              (shop 5 true [])
              (map handle [POST_reservations (ask 3);
                           POST_reservations (ask 4)])))
    = Some x' /\
    reserved_units bag_oid
      (reservations
         (fst (sched literal_search [0; 0; 1; 1; 0; 0; 0; 1; 1; 1]%nat
                 (shop 5 true [])
                 (map handle [POST_reservations (ask 3);
                              POST_reservations (ask 4)]))))
    + Offer.quantity (offer_doc x')
    = reserved_units bag_oid (reservations (shop 5 true []))
      + Offer.quantity (offer_doc (bag_doc 5 true)).
Proof.
  split; [reflexivity | split; [reflexivity |]].
  destruct (interleaved_requests_conserve_units literal_search
              [0; 0; 1; 1; 0; 0; 0; 1; 1; 1]%nat
              [POST_reservations (ask 3); POST_reservations (ask 4)]
              (shop 5 true []) bag_oid (bag_doc 5 true) eq_refl eq_refl)
    as [x' [A [_ C]]].
  exists x'. split; [exact A |]. apply C.
  repeat constructor.
Defined.

Lemma reserve_again_reserves_again_witness :
  db (shop 5 true []) = Some (shop_db 5 true) /\
  faults (shop 5 true []) = [] /\
  ObjectId (ReservationIn.offer_id (ask 2)) = Some bag_oid /\
  coll_find_one bag_oid (shop_db 5 true) = Some (bag_doc 5 true) /\
  1 <= ReservationIn.quantity (ask 2) /\
  2 * ReservationIn.quantity (ask 2)
  <= Offer.quantity (offer_doc (bag_doc 5 true)) /\
  quantity_of bag_oid
    (fst (run literal_search (reserve (ask 2))
              (fst (run literal_search (reserve (ask 2)) (shop 5 true [])))))
  = Some (Offer.quantity (offer_doc (bag_doc 5 true))
          - 2 * ReservationIn.quantity (ask 2)).
Proof.
  assert (H1 : 1 <= ReservationIn.quantity (ask 2)) by discriminate.
  assert (H2 : 2 * ReservationIn.quantity (ask 2)
               <= Offer.quantity (offer_doc (bag_doc 5 true)))
    by discriminate.
  split; [reflexivity | split; [reflexivity | split; [reflexivity |
    split; [reflexivity | split; [exact H1 | split; [exact H2 |]]]]]].
  destruct (reserve_again_reserves_again literal_search (ask 2)
              (shop 5 true []) (shop_db 5 true) bag_oid (bag_doc 5 true)
              eq_refl eq_refl eq_refl eq_refl H1 H2) as [_ [_ [_ A]]].
  exact A.
Defined.
